(** * Smart Resume Matcher: the scoring and ranking core of [script.js]

    The development embeds the pure part of [script.js] -- [extractSkills],
    [calculateMatchScore], [getMatchedSkills], [getMissingSkills] and
    [analyzeResume] -- and proves the properties its specification states.

    Modelling choices, all taken from the JavaScript source:
    - a JavaScript string is a [string]; [toLowerCase] folds the ASCII
      letters, which covers the whole skill vocabulary of [extractSkills];
    - a JavaScript Number is an IEEE 754 binary64 value, [spec_float] with
      precision 53 and maximal exponent 1024; division, multiplication,
      addition and subtraction are the correctly rounded operations of
      [SpecFloat];
    - a field of a job record that may be missing is an [option];
    - a thrown exception is the [Thrown] outcome of [JsResult];
    - the array [matches] that [analyzeResume] fills with [push] is passed
      explicitly through the loop;
    - [Array.prototype.sort] is a stable insertion sort driven by the sign of
      the comparator, as ECMAScript 2019 and later require of [sort]. *)

From Stdlib Require Import ZArith List String Ascii Bool Lia.
From Stdlib Require Import Permutation Sorted.
From Stdlib Require Import QArith Qpower Lqa.
From Stdlib Require Import SpecFloat.
Import ListNotations.

Local Open Scope string_scope.
Local Open Scope list_scope.

(* ===================================================================== *)
(** * Strings *)

(** [String.prototype.toLowerCase], on one character. *)
Definition toLowerChar (c : ascii) : ascii :=
  let n := nat_of_ascii c in
  if ((65 <=? n) && (n <=? 90))%nat then ascii_of_nat (n + 32) else c.

(** [String.prototype.toLowerCase]. *)
Fixpoint toLowerCase (s : string) : string :=
  match s with
  | EmptyString => EmptyString
  | String c r => String (toLowerChar c) (toLowerCase r)
  end.

(** [s.includes(t)]: [t] occurs in [s] at some position. *)
Fixpoint includes (s t : string) : bool :=
  String.prefix t s ||
  match s with
  | EmptyString => false
  | String _ r => includes r t
  end.

(** What [includes] decides: [t] is a contiguous part of [s]. *)
Definition substring_of (t s : string) : Prop :=
  exists pre post, s = (pre ++ t ++ post)%string.

(* ===================================================================== *)
(** * Numbers *)

Definition prec : Z := 53.
Definition emax : Z := 1024.

(** A JavaScript Number. *)
Definition Number : Type := spec_float.

(** The Number of an integer: a literal, or the [length] of an array. *)
Definition Number_of_Z (z : Z) : Number := binary_normalize prec emax z 0 false.
Definition Number_of_nat (n : nat) : Number := Number_of_Z (Z.of_nat n).

Definition Number_div : Number -> Number -> Number := SFdiv prec emax.
Definition Number_mul : Number -> Number -> Number := SFmul prec emax.
Definition Number_add : Number -> Number -> Number := SFadd prec emax.
Definition Number_sub : Number -> Number -> Number := SFsub prec emax.

(** [v > 0], the test [sort] makes on the result of its comparator. *)
Definition Number_gt0 (v : Number) : bool := SFltb (S754_zero false) v.

(** [Math.max] of two Numbers. *)
Definition Math_max (x y : Number) : Number :=
  match SFcompare x y with
  | Some Lt => y
  | Some Gt => x
  | Some Eq => match x with S754_zero true => y | _ => x end
  | None => S754_nan
  end.

(** The integer nearest to a finite Number, halves going up:
    [floor (x + 1/2)], computed exactly. *)
Definition round_half_up (s : bool) (m : positive) (e : Z) : Z :=
  let sm := cond_Zopp s (Zpos m) in
  if (0 <=? e)%Z then (sm * 2 ^ e)%Z
  else ((2 * sm + 2 ^ (- e)) / 2 ^ (1 - e))%Z.

(** [Math.round]: zeros, infinities and NaN are returned as they are; a
    negative Number that rounds to zero gives the negative zero. *)
Definition Math_round (x : Number) : Number :=
  match x with
  | S754_finite s m e => binary_normalize prec emax (round_half_up s m e) 0 s
  | _ => x
  end.

(** The largest [length] a JavaScript array can have is [2^32 - 1]. *)
Definition array_length_ok {A : Type} (l : list A) : Prop :=
  (Z.of_nat (List.length l) < 2 ^ 32)%Z.

(* ===================================================================== *)
(** * Exceptions *)

Inductive JsError : Type :=
| TypeError.

Inductive JsResult (A : Type) : Type :=
| Returned (a : A)
| Thrown (e : JsError).

Arguments Returned {A} a.
Arguments Thrown {A} e.

Definition bind {A B : Type} (r : JsResult A) (k : A -> JsResult B) : JsResult B :=
  match r with
  | Returned a => k a
  | Thrown e => Thrown e
  end.

Notation "x <- r ;; k" := (bind r (fun x => k))
  (at level 61, r at next level, right associativity).

(* ===================================================================== *)
(** * Jobs and match results *)

(** One entry of [data/job_descriptions.json].  The two skill lists and the
    URL are the fields the code reads defensively ([job.requirements || []],
    [job.nice_to_have || []], [match.source_url || '']). *)
Record Job : Type := {
  title : string;
  company : string;
  location : string;
  description : string;
  requirements : option (list string);
  nice_to_have : option (list string);
  source_url : option string
}.

(** The object [{...job, matchScore, matchedSkills, missingSkills}]:
    the fields of the job, copied, and the three computed ones. *)
Record MatchResult : Type := {
  job : Job;
  matchScore : Number;
  matchedSkills : list string;
  missingSkills : list string
}.

(** [value || []] on a field that is an array or missing. *)
Definition or_empty (field : option (list string)) : list string :=
  match field with
  | Some l => l
  | None => []
  end.

(* ===================================================================== *)
(** * The matcher *)

Definition commonSkills : list string :=
  [ "Python"; "JavaScript"; "Java"; "C++"; "C#"; "PHP"; "Ruby"; "Go"; "Rust";
    "React"; "Angular"; "Vue"; "Node.js"; "Express"; "Django"; "Flask"; "FastAPI";
    "SQL"; "PostgreSQL"; "MySQL"; "MongoDB"; "Redis"; "Docker"; "Kubernetes";
    "AWS"; "Azure"; "GCP"; "Git"; "GitHub"; "CI/CD"; "Jenkins"; "Travis";
    "Machine Learning"; "AI"; "TensorFlow"; "PyTorch"; "Scikit-learn";
    "Data Science"; "Pandas"; "NumPy"; "Matplotlib"; "Seaborn";
    "HTML"; "CSS"; "SASS"; "Bootstrap"; "Tailwind"; "TypeScript";
    "REST API"; "GraphQL"; "Microservices"; "Agile"; "Scrum" ].

(** [extractSkills]: the loop pushes, in vocabulary order, every skill whose
    lower-case form occurs in the lower-cased resume. *)
Definition extractSkills (resumeContent : string) : list string :=
  let resumeLower := toLowerCase resumeContent in
  filter (fun skill => includes resumeLower (toLowerCase skill)) commonSkills.

(** The test written out four times in the source:
    [resumeSkill.toLowerCase().includes(skill.toLowerCase()) ||
     skill.toLowerCase().includes(resumeSkill.toLowerCase())]. *)
Definition skillMatches (resumeSkill skill : string) : bool :=
  includes (toLowerCase resumeSkill) (toLowerCase skill) ||
  includes (toLowerCase skill) (toLowerCase resumeSkill).

(** [resumeSkills.some(resumeSkill => ...)]. *)
Definition someMatch (resumeSkills : list string) (skill : string) : bool :=
  existsb (fun resumeSkill => skillMatches resumeSkill skill) resumeSkills.

(** [calculateMatchScore]. *)
Definition calculateMatchScore (resumeSkills : list string) (j : Job) : Number :=
  let requiredSkills := or_empty (requirements j) in
  let niceToHaveSkills := or_empty (nice_to_have j) in
  if (List.length requiredSkills =? 0)%nat then Number_of_Z 0
  else
    let requiredMatches := List.length (filter (someMatch resumeSkills) requiredSkills) in
    let niceToHaveMatches := List.length (filter (someMatch resumeSkills) niceToHaveSkills) in
    let requiredScore :=
      Number_mul (Number_div (Number_of_nat requiredMatches)
                             (Number_of_nat (List.length requiredSkills)))
                 (Number_of_Z 80) in
    let niceToHaveScore :=
      Number_mul (Number_div (Number_of_nat niceToHaveMatches)
                             (Math_max (Number_of_nat (List.length niceToHaveSkills))
                                       (Number_of_Z 1)))
                 (Number_of_Z 20) in
    Math_round (Number_add requiredScore niceToHaveScore).

(** [getMatchedSkills]: [jobRequirements.filter] throws a [TypeError] when
    [jobRequirements] is [undefined]. *)
Definition getMatchedSkills (resumeSkills : list string)
    (jobRequirements : option (list string)) : JsResult (list string) :=
  match jobRequirements with
  | Some reqs => Returned (filter (someMatch resumeSkills) reqs)
  | None => Thrown TypeError
  end.

(** [getMissingSkills]. *)
Definition getMissingSkills (resumeSkills : list string)
    (jobRequirements : option (list string)) : JsResult (list string) :=
  match jobRequirements with
  | Some reqs => Returned (filter (fun skill => negb (someMatch resumeSkills skill)) reqs)
  | None => Thrown TypeError
  end.

(** The body of the [forEach] callback of [analyzeResume], for one job. *)
Definition matchJob (resumeSkills : list string) (j : Job) : JsResult MatchResult :=
  let score := calculateMatchScore resumeSkills j in
  matched <- getMatchedSkills resumeSkills (requirements j) ;;
  missing <- getMissingSkills resumeSkills (requirements j) ;;
  Returned {| job := j; matchScore := score;
              matchedSkills := matched; missingSkills := missing |}.

(** [jobData.forEach(job => { ...; matches.push(...) })]: the array
    [matches] grows at its end; an exception leaves the loop. *)
Fixpoint forEachJob (resumeSkills : list string) (jobData : list Job)
    (matches : list MatchResult) : JsResult (list MatchResult) :=
  match jobData with
  | [] => Returned matches
  | j :: rest =>
      m <- matchJob resumeSkills j ;;
      forEachJob resumeSkills rest (matches ++ [m])
  end.

(** [Array.prototype.sort(comparefn)]: [x], which stood before every element
    of [l], goes behind exactly those leading elements [y] with
    [comparefn(x, y) > 0]. *)
Fixpoint sort_insert {A : Type} (comparefn : A -> A -> Number) (x : A) (l : list A) : list A :=
  match l with
  | [] => [x]
  | y :: rest =>
      if Number_gt0 (comparefn x y) then y :: sort_insert comparefn x rest
      else x :: l
  end.

Definition Array_sort {A : Type} (comparefn : A -> A -> Number) (l : list A) : list A :=
  fold_right (sort_insert comparefn) [] l.

(** [(a, b) => b.matchScore - a.matchScore]. *)
Definition byScoreDescending (a b : MatchResult) : Number :=
  Number_sub (matchScore b) (matchScore a).

(** [analyzeResume] from the extracted skills on; [jobData] is the global
    the source reads. *)
Definition analyzeSkills (jobData : list Job) (resumeSkills : list string)
    : JsResult (list MatchResult) :=
  matches <- forEachJob resumeSkills jobData [] ;;
  Returned (Array_sort byScoreDescending matches).

(** [analyzeResume]. *)
Definition analyzeResume (jobData : list Job) (resumeContent : string)
    : JsResult (list MatchResult) :=
  analyzeSkills jobData (extractSkills resumeContent).

(* ===================================================================== *)
(** * Reading Numbers as rationals *)

(** The rational [m * 2^e]. *)
Definition F2Q (m e : Z) : Q := inject_Z m * 2 ^ e.

(** [x] is [+0], or finite, positive and at most [B]. *)
Definition nonneg_le (B : Q) (x : Number) : Prop :=
  match x with
  | S754_zero false => True
  | S754_finite false m e => F2Q (Zpos m) e <= B /\ (e <= emax - prec)%Z
  | _ => False
  end.

(** A rounding record carries a discarded part. *)
Definition inexact (mrs : shr_record) : bool := shr_r mrs || shr_s mrs.

(** [y] is [x] after [k] binary digits were shifted out. *)
Definition shifted (k : Z) (x y : shr_record) : Prop :=
  (0 <= shr_m y)%Z /\
  (shr_m y * 2 ^ k <= shr_m x)%Z /\
  (inexact y = true -> inexact x = true \/ (shr_m y * 2 ^ k < shr_m x)%Z).

(* ===================================================================== *)
(** * Vocabulary of the statements *)

(** The result [analyzeResume] pushes for a job whose [requirements] are
    present. *)
Definition resultOf (resumeSkills : list string) (j : Job) : MatchResult :=
  {| job := j;
     matchScore := calculateMatchScore resumeSkills j;
     matchedSkills := filter (someMatch resumeSkills) (or_empty (requirements j));
     missingSkills :=
       filter (fun skill => negb (someMatch resumeSkills skill)) (or_empty (requirements j)) |}.

(** A job record the loader can hand over: the skill lists, where present,
    are JavaScript arrays. *)
Definition arrays_ok (j : Job) : Prop :=
  array_length_ok (or_empty (requirements j)) /\
  array_length_ok (or_empty (nice_to_have j)).

(** A job record with its required skills present. *)
Definition has_requirements (j : Job) : Prop := requirements j <> None.

(** A score as the specification describes it: an integer from 0 to 100. *)
Definition integer_score (x : Number) : Prop :=
  exists z, (0 <= z <= 100)%Z /\ x = Number_of_Z z.

(** [a] is ranked at least as high as [b]. *)
Definition ranked_above (a b : MatchResult) : Prop :=
  SFleb (matchScore b) (matchScore a) = true.

(** [l1] is [l2] with some elements left out, the order kept. *)
Inductive subsequence {A : Type} : list A -> list A -> Prop :=
| subsequence_nil : subsequence [] []
| subsequence_skip (x : A) (l1 l2 : list A) :
    subsequence l1 l2 -> subsequence l1 (x :: l2)
| subsequence_keep (x : A) (l1 l2 : list A) :
    subsequence l1 l2 -> subsequence (x :: l1) (x :: l2).

(** The total score as the specification words it, from the four counts:
    [round((countMatchedRequired / countRequired) * 80
           + (countMatchedNice / max(countNice, 1)) * 20)]. *)
Definition spec_total_score
    (countMatchedRequired countRequired countMatchedNice countNice : nat) : Number :=
  Math_round
    (Number_add
       (Number_mul (Number_div (Number_of_nat countMatchedRequired)
                               (Number_of_nat countRequired))
                   (Number_of_Z 80))
       (Number_mul (Number_div (Number_of_nat countMatchedNice)
                               (Number_of_nat (Nat.max countNice 1)))
                   (Number_of_Z 20))).

(** The integers a score can be. *)
Definition score_range : list Z := map Z.of_nat (seq 0 101).

(** A job for the examples: only the skill lists vary. *)
Definition exampleJob (name : string) (req nice : option (list string)) : Job :=
  {| title := name; company := "Acme"; location := "Remote";
     description := "Example posting";
     requirements := req; nice_to_have := nice; source_url := None |}.

(** Scenario 1 of the specification. *)
Definition scenario1_job : Job :=
  exampleJob "Scenario 1" (Some ["Python"; "React"; "AWS"]) (Some []).

(** Scenario 2 of the specification. *)
Definition scenario2_job : Job :=
  exampleJob "Scenario 2" (Some []) (Some ["Docker"]).

(** A job whose only match is a nice-to-have skill. *)
Definition bonus_job : Job :=
  exampleJob "Bonus" (Some ["Python"]) (Some ["Docker"]).

(** A record without [requirements]. *)
Definition malformed_job : Job :=
  exampleJob "Malformed" None (Some ["Docker"]).

(** A record without [nice_to_have]. *)
Definition plain_job : Job :=
  exampleJob "Plain" (Some ["Python"]) None.

(* ===================================================================== *)
(** * The page around the matcher

    The handlers of [script.js] that show the results: [handleMatchRequest],
    [displayResults], [createJobCard], [getMatchLevel], [applyFilter] and
    [updateFilterCounts].  The document is the record [Page] of what these
    handlers read and write, passed from step to step; the job cards of the
    document are the cards of the results grid.  Left out are the markup
    around the computed parts of a card, the timers of the notifications,
    the simulated delay, scrolling and the console. *)

(** ** More of the string and Number library *)

(** The ASCII white space and line terminators, which [trim] removes. *)
Definition isWhiteSpace (c : ascii) : bool :=
  let n := nat_of_ascii c in
  (((9 <=? n) && (n <=? 13)) || (n =? 32))%nat.

Fixpoint trimStart (s : string) : string :=
  match s with
  | EmptyString => EmptyString
  | String c r => if isWhiteSpace c then trimStart r else s
  end.



(** [s.split('(')[0]]: the part of [s] before its first [sep]. *)
Fixpoint beforeFirst (sep : ascii) (s : string) : string :=
  match s with
  | EmptyString => EmptyString
  | String c r => if Ascii.eqb c sep then EmptyString else String c (beforeFirst sep r)
  end.

(** [array.includes(x)] on strings. *)
Definition Array_includes (l : list string) (x : string) : bool :=
  existsb (String.eqb x) l.

(** [x >= y] and [x < y]; both are false when a NaN is involved. *)
Definition Number_ge (x y : Number) : bool := SFleb y x.
Definition Number_lt (x y : Number) : bool := SFltb x y.

(** The decimal digits of a natural number, most significant first. *)
Definition digitChar (d : Z) : ascii := ascii_of_nat (48 + Z.to_nat d).

Fixpoint decimalDigits (fuel : nat) (z : Z) (acc : string) : string :=
  let acc' := String (digitChar (z mod 10)) acc in
  match fuel with
  | O => acc'
  | S f => if (z <? 10)%Z then acc' else decimalDigits f (z / 10) acc'
  end.

Definition decimalString (z : Z) : string :=
  decimalDigits (Z.to_nat (Z.log2 z)) z EmptyString.

(** The integer a Number is, when it is one. *)
Definition Number_integer (x : Number) : option Z :=
  match x with
  | S754_zero _ => Some 0%Z
  | S754_finite s m e =>
      if (0 <=? e)%Z then Some (cond_Zopp s (Zpos m * 2 ^ e))
      else if (Zpos m mod 2 ^ (- e) =? 0)%Z
           then Some (cond_Zopp s (Zpos m / 2 ^ (- e)))
           else None
  | _ => None
  end.

Section NumberToString.

(** The string ECMAScript gives a finite Number that is not an integer
    below [2^53] in magnitude (its shortest digits that read back as the
    same Number); the page never shows such a Number, and the statements
    hold whatever these strings are. *)
Variable toString_other : Number -> string.

(** [String(x)], as a template literal and [dataset] apply it. *)
Definition Number_toString (x : Number) : string :=
  match x with
  | S754_nan => "NaN"
  | S754_infinity false => "Infinity"
  | S754_infinity true => "-Infinity"
  | _ =>
      match Number_integer x with
      | Some z =>
          if (Z.abs z <? 2 ^ 53)%Z
          then if (z <? 0)%Z then "-" ++ decimalString (- z) else decimalString z
          else toString_other x
      | None => toString_other x
      end
  end.

End NumberToString.

(** The value of [c] as a digit of the given radix. *)
Definition digitValue (radix : Z) (c : ascii) : option Z :=
  let n := Z.of_nat (nat_of_ascii c) in
  let v := if ((48 <=? n) && (n <=? 57))%Z then Some (n - 48)%Z
           else if ((97 <=? n) && (n <=? 122))%Z then Some (n - 87)%Z
           else if ((65 <=? n) && (n <=? 90))%Z then Some (n - 55)%Z
           else None in
  match v with
  | Some d => if (d <? radix)%Z then Some d else None
  | None => None
  end.

(** The integer of the longest run of digits at the head of [s]; [acc] is
    [None] until a digit was read. *)
Fixpoint parseDigits (radix : Z) (s : string) (acc : option Z) : option Z :=
  match s with
  | EmptyString => acc
  | String c r =>
      match digitValue radix c with
      | Some d =>
          parseDigits radix r
            (Some (match acc with Some a => a * radix + d | None => d end)%Z)
      | None => acc
      end
  end.

(** [parseInt(input)] with no radix given: leading white space, a sign, a
    [0x] prefix, then digits; NaN when there is no digit. *)
Definition parseInt (input : string) : Number :=
  let s := trimStart input in
  let signed :=
    match s with
    | String c r =>
        if Ascii.eqb c "-" then (true, r)
        else if Ascii.eqb c "+" then (false, r)
        else (false, s)
    | EmptyString => (false, s)
    end in
  let negative := fst signed in
  let prefixed :=
    match snd signed with
    | String c0 (String c1 r) =>
        if Ascii.eqb c0 "0" && (Ascii.eqb c1 "x" || Ascii.eqb c1 "X")
        then (16%Z, r) else (10%Z, snd signed)
    | _ => (10%Z, snd signed)
    end in
  match parseDigits (fst prefixed) (snd prefixed) None with
  | None => S754_nan
  | Some v => binary_normalize prec emax (if negative then - v else v) 0 negative
  end.

(** ** Tiers *)

(** [getMatchLevel]. *)
Definition getMatchLevel (score : Number) : string :=
  if Number_ge score (Number_of_Z 80) then "high"
  else if Number_ge score (Number_of_Z 60) then "medium"
  else "low".

(** The object [counts] of [updateFilterCounts]. *)
Record FilterCounts : Type := {
  high : nat;
  medium : nat;
  low : nat
}.

Definition filterCounts (matches : list MatchResult) : FilterCounts :=
  {| high :=
       List.length (filter (fun m => Number_ge (matchScore m) (Number_of_Z 80)) matches);
     medium :=
       List.length (filter (fun m => Number_ge (matchScore m) (Number_of_Z 60)
                                     && Number_lt (matchScore m) (Number_of_Z 80)) matches);
     low :=
       List.length (filter (fun m => Number_lt (matchScore m) (Number_of_Z 60)) matches) |}.

(** [counts[filter]]: [undefined] for a name that is no key of [counts]. *)
Definition countFor (counts : FilterCounts) (name : string) : option nat :=
  if String.eqb name "high" then Some (high counts)
  else if String.eqb name "medium" then Some (medium counts)
  else if String.eqb name "low" then Some (low counts)
  else None.

(** The test in the [switch] of [applyFilter]. *)
Definition filterShows (name : string) (score : Number) : bool :=
  if String.eqb name "high" then Number_ge score (Number_of_Z 80)
  else if String.eqb name "medium"
       then Number_ge score (Number_of_Z 60) && Number_lt score (Number_of_Z 80)
  else if String.eqb name "low" then Number_lt score (Number_of_Z 60)
  else true.

(** ** The page *)

(** A job card: the parts of its markup that [createJobCard] computes, its
    [dataset.matchScore] and its [style.display] (empty until a filter sets
    it).  A skill tag is the pair of its class and its text. *)
Record Card : Type := {
  card_matchScore : string;
  card_title : string;
  card_company : string;
  card_matchLevel : string;
  card_requiredTags : list (string * string);
  card_niceToHaveTags : list (string * string);
  card_applyUrl : string;
  card_display : string
}.

(** A filter button: [dataset.filter], [textContent], and whether it has the
    class [active]. *)
Record Button : Type := {
  btn_filter : string;
  btn_text : string;
  btn_active : bool
}.

(** The global [currentFilter] and the elements the handlers read and
    write; [notifications] lists the messages shown, oldest first, each with
    its type. *)
Record Page : Type := {
  currentFilter : string;
  resumeText_value : string;
  loadingModal_hidden : bool;
  resultsSection_hidden : bool;
  resultsGrid : list Card;
  filterBtns : list Button;
  notifications : list (string * string)
}.

(** [match.matchedSkills.includes(skill) ? 'matched' : 'missing'], with the
    skill the tag shows. *)
Definition skillTag (matched : list string) (skill : string) : string * string :=
  (if Array_includes matched skill then "matched" else "missing", skill).




Definition setResults (hidden : bool) (grid : list Card) (p : Page) : Page :=
  {| currentFilter := currentFilter p;
     resumeText_value := resumeText_value p;
     loadingModal_hidden := loadingModal_hidden p;
     resultsSection_hidden := hidden;
     resultsGrid := grid;
     filterBtns := filterBtns p;
     notifications := notifications p |}.

Definition setButtons (btns : list Button) (p : Page) : Page :=
  {| currentFilter := currentFilter p;
     resumeText_value := resumeText_value p;
     loadingModal_hidden := loadingModal_hidden p;
     resultsSection_hidden := resultsSection_hidden p;
     resultsGrid := resultsGrid p;
     filterBtns := btns;
     notifications := notifications p |}.

Section Rendering.

Variable toString_other : Number -> string.

(** The card of a match whose [requirements] are present. *)
Definition cardOf (m : MatchResult) : Card :=
  {| card_matchScore := Number_toString toString_other (matchScore m);
     card_title := title (job m);
     card_company := company (job m);
     card_matchLevel := getMatchLevel (matchScore m);
     card_requiredTags :=
       map (skillTag (matchedSkills m)) (or_empty (requirements (job m)));
     card_niceToHaveTags :=
       map (skillTag (matchedSkills m)) (or_empty (nice_to_have (job m)));
     card_applyUrl :=
       match source_url (job m) with
       | Some u => u
       | None => EmptyString
       end;
     card_display := EmptyString |}.

(** [createJobCard]: [match.requirements.map] throws a [TypeError] when
    the field is missing; the nice-to-have section is rendered only for a
    list that is present and not empty. *)
Definition createJobCard (m : MatchResult) : JsResult Card :=
  match requirements (job m) with
  | None => Thrown TypeError
  | Some reqs =>
      Returned
        {| card_matchScore := Number_toString toString_other (matchScore m);
           card_title := title (job m);
           card_company := company (job m);
           card_matchLevel := getMatchLevel (matchScore m);
           card_requiredTags := map (skillTag (matchedSkills m)) reqs;
           card_niceToHaveTags :=
             match nice_to_have (job m) with
             | Some (s :: nice) => map (skillTag (matchedSkills m)) (s :: nice)
             | _ => []
             end;
           card_applyUrl :=
             match source_url (job m) with
             | Some (String c u) => String c u
             | _ => EmptyString
             end;
           card_display := EmptyString |}
  end.

(** [`${count}`] for [count = counts[filter]]. *)
Definition countText (count : option nat) : string :=
  match count with
  | Some n => Number_toString toString_other (Number_of_nat n)
  | None => "undefined"
  end.

(** The new [textContent] of a filter button:
    [`${btn.textContent.split('(')[0]} (${count})`]. *)
Definition countLabel (text : string) (count : option nat) : string :=
  beforeFirst "(" text ++ " (" ++ countText count ++ ")".

(** [updateFilterCounts]. *)
Definition updateFilterCounts (matches : list MatchResult) (p : Page) : Page :=
  let counts := filterCounts matches in
  setButtons
    (map (fun btn =>
            if negb (String.eqb (btn_filter btn) "all")
            then {| btn_filter := btn_filter btn;
                    btn_text := countLabel (btn_text btn) (countFor counts (btn_filter btn));
                    btn_active := btn_active btn |}
            else btn)
         (filterBtns p))
    p.

(** The loop of [displayResults]: a card is appended for each match until
    [createJobCard] throws. *)
Fixpoint appendCards (matches : list MatchResult) (p : Page) : Page * option JsError :=
  match matches with
  | [] => (p, None)
  | m :: rest =>
      match createJobCard m with
      | Returned card =>
          appendCards rest (setResults (resultsSection_hidden p) (resultsGrid p ++ [card]) p)
      | Thrown e => (p, Some e)
      end
  end.

(** [displayResults]: the page it leaves, and the exception if one was
    thrown on the way. *)
Definition displayResults (matches : list MatchResult) (p : Page) : Page * option JsError :=
  match appendCards matches (setResults false [] p) with
  | (p', None) => (updateFilterCounts matches p', None)
  | (p', Some e) => (p', Some e)
  end.


End Rendering.

(** [applyFilter]: the global, the active button, and the display of every
    card, decided on [parseInt(card.dataset.matchScore)]. *)
Definition applyFilter (name : string) (p : Page) : Page :=
  {| currentFilter := name;
     resumeText_value := resumeText_value p;
     loadingModal_hidden := loadingModal_hidden p;
     resultsSection_hidden := resultsSection_hidden p;
     resultsGrid :=
       map (fun card =>
              {| card_matchScore := card_matchScore card;
                 card_title := card_title card;
                 card_company := card_company card;
                 card_matchLevel := card_matchLevel card;
                 card_requiredTags := card_requiredTags card;
                 card_niceToHaveTags := card_niceToHaveTags card;
                 card_applyUrl := card_applyUrl card;
                 card_display :=
                   if filterShows name (parseInt (card_matchScore card))
                   then "block" else "none" |})
           (resultsGrid p);
     filterBtns :=
       map (fun btn => {| btn_filter := btn_filter btn;
                          btn_text := btn_text btn;
                          btn_active := String.eqb (btn_filter btn) name |})
           (filterBtns p);
     notifications := notifications p |}.

(** The cards a filter leaves on display. *)
Definition visibleCards (p : Page) : list Card :=
  filter (fun card => String.eqb (card_display card) "block") (resultsGrid p).

(** A page before any analysis, for the examples. *)
Definition freshPage (text : string) : Page :=
  {| currentFilter := "all";
     resumeText_value := text;
     loadingModal_hidden := true;
     resultsSection_hidden := true;
     resultsGrid := [];
     filterBtns :=
       [ {| btn_filter := "all"; btn_text := "All"; btn_active := true |};
         {| btn_filter := "high"; btn_text := "High Match"; btn_active := false |};
         {| btn_filter := "medium"; btn_text := "Medium Match"; btn_active := false |};
         {| btn_filter := "low"; btn_text := "Low Match"; btn_active := false |} ];
     notifications := [] |}.

(** ** Vocabulary for the statements about the page *)

(** No string occurs twice in [l]. *)
Fixpoint nodupb (l : list string) : bool :=
  match l with
  | [] => true
  | x :: rest => negb (existsb (String.eqb x) rest) && nodupb rest
  end.



(** A string of white space only. *)
Fixpoint allWhiteSpace (s : string) : bool :=
  match s with
  | EmptyString => true
  | String c r => isWhiteSpace c && allWhiteSpace r
  end.

(** ** Symmetric containment, in the words of the specification *)

(** Either skill is a case-insensitive substring of the other. *)
Definition symmetric_containment (A B : string) : Prop :=
  substring_of (toLowerCase A) (toLowerCase B) \/
  substring_of (toLowerCase B) (toLowerCase A).

(** The equivalence test succeeds for [skill] against some resume skill. *)
Definition matches_resume (resumeSkills : list string) (skill : string) : Prop :=
  exists resumeSkill, In resumeSkill resumeSkills /\ symmetric_containment resumeSkill skill.

(** The score of a job when [test] tells which of its skills count as
    matched: 0 for a job without required skills, else the weighted
    formula on the counts. *)
Definition score_by_test (test : string -> bool) (j : Job) : Number :=
  match or_empty (requirements j) with
  | [] => Number_of_Z 0
  | _ :: _ =>
      Math_round
        (Number_add
           (Number_mul
              (Number_div
                 (Number_of_nat (List.length (filter test (or_empty (requirements j)))))
                 (Number_of_nat (List.length (or_empty (requirements j)))))
              (Number_of_Z 80))
           (Number_mul
              (Number_div
                 (Number_of_nat (List.length (filter test (or_empty (nice_to_have j)))))
                 (Math_max (Number_of_nat (List.length (or_empty (nice_to_have j))))
                           (Number_of_Z 1)))
              (Number_of_Z 20)))
  end.

(** A job that asks for Node.js, and one that asks for Node. *)
Definition nodejs_job : Job := exampleJob "Node.js" (Some ["Node.js"]) None.
Definition node_job : Job := exampleJob "Node" (Some ["Node"]) None.

(** ** Texts of ASCII characters *)



(* ===================================================================== *)
(** * Powers of two *)

Lemma pow2_pos (e : Z) : 0 < 2 ^ e.
Proof. apply Qpower_0_lt. reflexivity. Qed.

Lemma pow2_add (a b : Z) : 2 ^ (a + b) == 2 ^ a * 2 ^ b.
Proof. apply Qpower_plus. discriminate. Qed.

Lemma pow2_le (a b : Z) : (a <= b)%Z -> 2 ^ a <= 2 ^ b.
Proof. intros H. apply Qpower_le_compat_l; [exact H | discriminate]. Qed.

Lemma pow2_lt_inv (a b : Z) : 2 ^ a < 2 ^ b -> (a < b)%Z.
Proof.
  intros H. destruct (Z_lt_le_dec a b) as [Hlt | Hle]; [exact Hlt | ].
  apply pow2_le in Hle. lra.
Qed.

Lemma pow2_Z (n : Z) : (0 <= n)%Z -> 2 ^ n == inject_Z (2 ^ n).
Proof. intros H. rewrite Zpower_Qpower by exact H. reflexivity. Qed.

Lemma F2Q_scale (m e k : Z) : (0 <= k)%Z -> F2Q (m * 2 ^ k) e == F2Q m (e + k).
Proof.
  intros Hk. unfold F2Q. rewrite inject_Z_mult, pow2_add.
  rewrite <- (pow2_Z k) by exact Hk. ring.
Qed.

Lemma F2Q_le_mono (a b e : Z) : (a <= b)%Z -> F2Q a e <= F2Q b e.
Proof.
  intros H. unfold F2Q. apply Qmult_le_compat_r.
  - rewrite <- Zle_Qle. exact H.
  - apply Qlt_le_weak, pow2_pos.
Qed.

Lemma F2Q_lt_mono (a b e : Z) : (a < b)%Z -> F2Q a e < F2Q b e.
Proof.
  intros H. unfold F2Q. apply Qmult_lt_compat_r.
  - apply pow2_pos.
  - rewrite <- Zlt_Qlt. exact H.
Qed.

Lemma F2Q_lt_inv (a b e : Z) : F2Q a e < F2Q b e -> (a < b)%Z.
Proof.
  intros H. destruct (Z_lt_le_dec a b) as [Hlt | Hle]; [exact Hlt | ].
  apply (F2Q_le_mono _ _ e) in Hle. lra.
Qed.

Lemma F2Q_le_inv (a b e : Z) : F2Q a e <= F2Q b e -> (a <= b)%Z.
Proof.
  intros H. destruct (Z_le_gt_dec a b) as [Hle | Hgt]; [exact Hle | ].
  apply Z.gt_lt, (F2Q_lt_mono _ _ e) in Hgt. lra.
Qed.

Lemma F2Q_nonneg (m e : Z) : (0 <= m)%Z -> 0 <= F2Q m e.
Proof.
  intros H. unfold F2Q. apply Qmult_le_0_compat.
  - replace 0 with (inject_Z 0) by reflexivity. rewrite <- Zle_Qle. exact H.
  - apply Qlt_le_weak, pow2_pos.
Qed.

Lemma F2Q_pos (m : positive) (e : Z) : 0 < F2Q (Zpos m) e.
Proof.
  unfold F2Q. apply Qmult_lt_0_compat; [reflexivity | apply pow2_pos].
Qed.

Lemma F2Q_mul (a b ea eb : Z) : F2Q (a * b) (ea + eb) == F2Q a ea * F2Q b eb.
Proof. unfold F2Q. rewrite inject_Z_mult, pow2_add. ring. Qed.

Lemma F2Q_one (e : Z) : F2Q 1 e == 2 ^ e.
Proof. unfold F2Q. ring. Qed.

(* ===================================================================== *)
(** * Binary digits *)

Lemma digits2_pos_bounds (p : positive) :
  (2 ^ (Zpos (digits2_pos p) - 1) <= Zpos p < 2 ^ Zpos (digits2_pos p))%Z.
Proof.
  induction p as [p IH | p IH | ]; cbn [digits2_pos].
  - rewrite Pos2Z.inj_succ.
    replace (Z.succ (Zpos (digits2_pos p)) - 1)%Z with (Zpos (digits2_pos p) - 1 + 1)%Z by lia.
    rewrite Z.pow_succ_r, Z.pow_add_r by lia. lia.
  - rewrite Pos2Z.inj_succ.
    replace (Z.succ (Zpos (digits2_pos p)) - 1)%Z with (Zpos (digits2_pos p) - 1 + 1)%Z by lia.
    rewrite Z.pow_succ_r, Z.pow_add_r by lia. lia.
  - cbn. lia.
Qed.

Lemma Zdigits2_nonneg (m : Z) : (0 <= Zdigits2 m)%Z.
Proof. destruct m; cbn; lia. Qed.

Lemma Zdigits2_upper (m : Z) : (0 <= m)%Z -> (m < 2 ^ Zdigits2 m)%Z.
Proof.
  intros H. destruct m as [ | p | p]; cbn [Zdigits2]; [cbn; lia | | lia].
  apply digits2_pos_bounds.
Qed.

Lemma Zdigits2_lower (m : Z) : (0 < m)%Z -> (2 ^ (Zdigits2 m - 1) <= m)%Z.
Proof.
  intros H. destruct m as [ | p | p]; cbn [Zdigits2]; [lia | | lia].
  apply digits2_pos_bounds.
Qed.

Lemma F2Q_digits_upper (m e : Z) : (0 <= m)%Z -> F2Q m e < 2 ^ (Zdigits2 m + e).
Proof.
  intros H. rewrite Z.add_comm, <- F2Q_one, <- F2Q_scale by apply Zdigits2_nonneg.
  apply F2Q_lt_mono. rewrite Z.mul_1_l. apply Zdigits2_upper, H.
Qed.

Lemma F2Q_digits_lower (m e : Z) : (0 < m)%Z -> 2 ^ (Zdigits2 m - 1 + e) <= F2Q m e.
Proof.
  intros H.
  assert (Hd : (0 <= Zdigits2 m - 1)%Z).
  { destruct m as [ | p | p]; cbn [Zdigits2]; lia. }
  rewrite Z.add_comm, <- F2Q_one, <- F2Q_scale by exact Hd.
  apply F2Q_le_mono. rewrite Z.mul_1_l. apply Zdigits2_lower, H.
Qed.

(** A larger value has at least as many digits above the binary point. *)
Lemma digits_le_of_F2Q_le (m1 e1 m2 e2 : Z) :
  (0 < m1)%Z -> (0 <= m2)%Z -> F2Q m1 e1 <= F2Q m2 e2 ->
  (Zdigits2 m1 + e1 <= Zdigits2 m2 + e2)%Z.
Proof.
  intros H1 H2 Hle.
  pose proof (F2Q_digits_lower m1 e1 H1) as Hlo.
  pose proof (F2Q_digits_upper m2 e2 H2) as Hup.
  assert (Hlt : 2 ^ (Zdigits2 m1 - 1 + e1) < 2 ^ (Zdigits2 m2 + e2)) by lra.
  apply pow2_lt_inv in Hlt. lia.
Qed.

(* ===================================================================== *)
(** * The exponent function *)

Lemma fexp_mono (a b : Z) : (a <= b)%Z -> (fexp prec emax a <= fexp prec emax b)%Z.
Proof. unfold fexp, emin. lia. Qed.

Lemma fexp_emin (a : Z) : (emin prec emax <= fexp prec emax a)%Z.
Proof. unfold fexp. lia. Qed.

Lemma canonical_exponent (m : positive) (e : Z) :
  canonical_mantissa prec emax m e = true ->
  fexp prec emax (Zdigits2 (Zpos m) + e) = e.
Proof. unfold canonical_mantissa. intros H. apply Z.eqb_eq in H. exact H. Qed.

(* ===================================================================== *)
(** * Shifting digits out *)

Lemma shr_1_shifted (x : shr_record) : (0 <= shr_m x)%Z -> shifted 1 x (shr_1 x).
Proof.
  destruct x as [m r s]. cbn [shr_m]. intros Hm. unfold shifted, inexact.
  rewrite Z.pow_1_r.
  destruct m as [ | [p | p | ] | p]; cbn [shr_1 shr_m shr_r shr_s]; try lia;
    (repeat split; try lia; intros H;
     first [right; lia | left; destruct r, s; auto]).
Qed.

Lemma shifted_trans (j k : Z) (x y z : shr_record) :
  (0 < j)%Z -> (0 < k)%Z -> shifted j x y -> shifted k y z -> shifted (j + k) x z.
Proof.
  intros Hj Hk (Hy0 & Hyx & Hyi) (Hz0 & Hzy & Hzi).
  assert (Pj : (0 < 2 ^ j)%Z) by (apply Z.pow_pos_nonneg; lia).
  assert (Pk : (0 < 2 ^ k)%Z) by (apply Z.pow_pos_nonneg; lia).
  unfold shifted. rewrite Z.pow_add_r by lia.
  split; [exact Hz0 | ]. split; [nia | ].
  intros Hi. destruct (Hzi Hi) as [Hy | Hlt].
  - destruct (Hyi Hy) as [Hx | Hlt]; [left; exact Hx | right; nia].
  - right. nia.
Qed.

Lemma shifted_nonneg (k : Z) (x y : shr_record) : shifted k x y -> (0 <= shr_m y)%Z.
Proof. intros H. apply H. Qed.

Lemma iter_pos_shifted (p : positive) :
  forall x, (0 <= shr_m x)%Z -> shifted (Zpos p) x (iter_pos shr_1 p x).
Proof.
  induction p as [p IH | p IH | ]; intros x Hx; cbn [iter_pos].
  - pose proof (shr_1_shifted x Hx) as H1.
    pose proof (IH _ (shifted_nonneg _ _ _ H1)) as H2.
    pose proof (IH _ (shifted_nonneg _ _ _ H2)) as H3.
    replace (Zpos p~1) with (1 + (Zpos p + Zpos p))%Z by lia.
    apply shifted_trans with (y := shr_1 x); [lia | lia | exact H1 | ].
    apply shifted_trans with (y := iter_pos shr_1 p (shr_1 x));
      [lia | lia | exact H2 | exact H3].
  - pose proof (IH _ Hx) as H2.
    pose proof (IH _ (shifted_nonneg _ _ _ H2)) as H3.
    replace (Zpos p~0) with (Zpos p + Zpos p)%Z by lia.
    apply shifted_trans with (y := iter_pos shr_1 p x);
      [lia | lia | exact H2 | exact H3].
  - apply shr_1_shifted, Hx.
Qed.

Lemma loc_of_shr_record_of_loc (m : Z) (l : SpecFloat.location) :
  loc_of_shr_record (shr_record_of_loc m l) = l.
Proof. destruct l as [ | [ | | ]]; reflexivity. Qed.

Lemma shr_m_of_loc (m : Z) (l : SpecFloat.location) : shr_m (shr_record_of_loc m l) = m.
Proof. destruct l as [ | [ | | ]]; reflexivity. Qed.

Lemma inexact_of_loc (m : Z) (l : SpecFloat.location) :
  inexact (shr_record_of_loc m l) = true -> l <> loc_Exact.
Proof. destruct l as [ | [ | | ]]; cbn; congruence. Qed.

Lemma inexact_loc (mrs : shr_record) :
  loc_of_shr_record mrs <> loc_Exact -> inexact mrs = true.
Proof. destruct mrs as [m [ | ] [ | ]]; cbn; congruence. Qed.

(** What [shr_fexp] returns: either nothing moved, or digits were shifted
    out and the exponent is the one [fexp] asks for. *)
Lemma shr_fexp_cases (m e : Z) (l : SpecFloat.location) :
  (0 <= m)%Z ->
  let n := (fexp prec emax (Zdigits2 m + e) - e)%Z in
  ((n <= 0)%Z /\ shr_fexp prec emax m e l = (shr_record_of_loc m l, e)) \/
  ((0 < n)%Z /\ exists mrs,
      shr_fexp prec emax m e l = (mrs, fexp prec emax (Zdigits2 m + e)) /\
      shifted n (shr_record_of_loc m l) mrs).
Proof.
  intros Hm n. unfold shr_fexp. fold n.
  destruct n as [ | p | p] eqn:En.
  - left. split; [lia | reflexivity].
  - right. split; [lia | ]. eexists. split.
    + cbn [shr]. f_equal. lia.
    + apply iter_pos_shifted. rewrite shr_m_of_loc. exact Hm.
  - left. split; [lia | reflexivity].
Qed.

Lemma round_nearest_even_cases (m : Z) (l : SpecFloat.location) :
  round_nearest_even m l = m \/
  (round_nearest_even m l = (m + 1)%Z /\ l <> loc_Exact).
Proof.
  destruct l as [ | [ | | ]]; cbn [round_nearest_even]; auto.
  - destruct (Z.even m); [left; reflexivity | right; split; [reflexivity | discriminate]].
  - right. split; [reflexivity | discriminate].
Qed.

(* ===================================================================== *)
(** * Rounding never goes above a representable bound *)

Section RoundBelowBound.

(** The bound: a positive Number in canonical form. *)
Variables (mB : positive) (eB : Z).
Hypothesis canonical_B : canonical_mantissa prec emax mB eB = true.
Hypothesis finite_B : (eB <= emax - prec)%Z.

Local Abbreviation B := (F2Q (Zpos mB) eB).

Lemma emin_le_bound : (emin prec emax <= eB)%Z.
Proof. rewrite <- (canonical_exponent _ _ canonical_B). apply fexp_emin. Qed.

(** Below the bound, the exponent [fexp] asks for is at most the bound's. *)
Lemma fexp_le_bound (m e : Z) :
  (0 <= m)%Z -> F2Q m e <= B ->
  (e <= fexp prec emax (Zdigits2 m + e))%Z ->
  (fexp prec emax (Zdigits2 m + e) <= eB)%Z.
Proof.
  intros Hm Hle He.
  destruct (Z.eq_dec m 0) as [-> | Hnz].
  - cbn [Zdigits2] in *. rewrite Z.add_0_l in *.
    pose proof emin_le_bound. revert He. unfold fexp, emin, prec, emax in *. lia.
  - rewrite <- (canonical_exponent _ _ canonical_B). apply fexp_mono.
    apply digits_le_of_F2Q_le; [lia | lia | exact Hle].
Qed.

(** The bound is a multiple of every smaller unit. *)
Lemma F2Q_succ_le_bound (m e : Z) :
  (e <= eB)%Z -> F2Q m e < B -> F2Q (m + 1) e <= B.
Proof.
  intros He Hlt.
  assert (HB : B == F2Q (Zpos mB * 2 ^ (eB - e)) e).
  { rewrite F2Q_scale by lia. replace (e + (eB - e))%Z with eB by lia. reflexivity. }
  rewrite HB in *. apply F2Q_lt_inv in Hlt. apply F2Q_le_mono. lia.
Qed.

(** First shift and rounding of [binary_round_aux]. *)
Lemma round_first_stage (mx ex : Z) (lx : SpecFloat.location) :
  (0 <= mx)%Z -> (ex <= emax - prec)%Z -> F2Q mx ex <= B ->
  (lx <> loc_Exact ->
     (ex <= fexp prec emax (Zdigits2 mx + ex))%Z /\ F2Q mx ex < B) ->
  exists mrs e,
    shr_fexp prec emax mx ex lx = (mrs, e) /\
    (0 <= round_nearest_even (shr_m mrs) (loc_of_shr_record mrs))%Z /\
    F2Q (round_nearest_even (shr_m mrs) (loc_of_shr_record mrs)) e <= B /\
    (e <= emax - prec)%Z.
Proof.
  intros Hm Hex Hle Hinex.
  destruct (shr_fexp_cases mx ex lx Hm) as [[Hn Heq] | [Hn (mrs & Heq & Hsh)]].
  - exists (shr_record_of_loc mx lx), ex. split; [exact Heq | ].
    rewrite shr_m_of_loc, loc_of_shr_record_of_loc.
    destruct (round_nearest_even_cases mx lx) as [-> | [-> Hl]].
    + auto.
    + destruct (Hinex Hl) as [Hfe Hlt]. repeat split; [lia | | exact Hex].
      apply F2Q_succ_le_bound; [ | exact Hlt].
      pose proof (fexp_le_bound mx ex Hm Hle Hfe). lia.
  - exists mrs, (fexp prec emax (Zdigits2 mx + ex)). split; [exact Heq | ].
    destruct Hsh as (H0 & Hlo & Hin). rewrite shr_m_of_loc in Hlo, Hin.
    set (e' := fexp prec emax (Zdigits2 mx + ex)) in *.
    assert (He' : (e' <= eB)%Z) by (apply fexp_le_bound; [exact Hm | exact Hle | lia]).
    assert (Hval : F2Q (shr_m mrs) e' == F2Q (shr_m mrs * 2 ^ (e' - ex)) ex).
    { rewrite F2Q_scale by lia. replace (ex + (e' - ex))%Z with e' by lia. reflexivity. }
    assert (Hbelow : F2Q (shr_m mrs) e' <= F2Q mx ex).
    { rewrite Hval. apply F2Q_le_mono. exact Hlo. }
    destruct (round_nearest_even_cases (shr_m mrs) (loc_of_shr_record mrs)) as [-> | [-> Hl]].
    + repeat split; [exact H0 | lra | lia].
    + repeat split; [lia | | lia].
      apply F2Q_succ_le_bound; [exact He' | ].
      destruct (Hin (inexact_loc _ Hl)) as [Hi | Hlt].
      * apply inexact_of_loc in Hi. destruct (Hinex Hi) as [_ Hs]. lra.
      * apply (F2Q_lt_mono _ _ ex) in Hlt. rewrite <- Hval in Hlt. lra.
Qed.

(** Second shift of [binary_round_aux], after an exact rounding. *)
Lemma round_second_stage (m e : Z) :
  (0 <= m)%Z -> (e <= emax - prec)%Z -> F2Q m e <= B ->
  exists mrs e',
    shr_fexp prec emax m e loc_Exact = (mrs, e') /\
    (0 <= shr_m mrs)%Z /\ F2Q (shr_m mrs) e' <= B /\ (e' <= emax - prec)%Z.
Proof.
  intros Hm He Hle.
  destruct (shr_fexp_cases m e loc_Exact Hm) as [[Hn Heq] | [Hn (mrs & Heq & Hsh)]].
  - exists (shr_record_of_loc m loc_Exact), e. cbn [shr_record_of_loc shr_m]. auto.
  - exists mrs, (fexp prec emax (Zdigits2 m + e)). split; [exact Heq | ].
    destruct Hsh as (H0 & Hlo & _). cbn [shr_record_of_loc shr_m] in Hlo.
    set (e' := fexp prec emax (Zdigits2 m + e)) in *.
    assert (He' : (e' <= eB)%Z) by (apply fexp_le_bound; [exact Hm | exact Hle | lia]).
    repeat split; [exact H0 | | lia].
    assert (Hval : F2Q (shr_m mrs) e' == F2Q (shr_m mrs * 2 ^ (e' - e)) e).
    { rewrite F2Q_scale by lia. replace (e + (e' - e))%Z with e' by lia. reflexivity. }
    rewrite Hval. apply (F2Q_le_mono _ _ e) in Hlo. lra.
Qed.

(** [binary_round_aux] on a value that is at most [B] gives a Number
    that is at most [B]. *)
Lemma binary_round_aux_le (mx ex : Z) (lx : SpecFloat.location) :
  (0 <= mx)%Z -> (ex <= emax - prec)%Z -> F2Q mx ex <= B ->
  (lx <> loc_Exact ->
     (ex <= fexp prec emax (Zdigits2 mx + ex))%Z /\ F2Q mx ex < B) ->
  nonneg_le B (binary_round_aux prec emax false mx ex lx).
Proof.
  intros Hm Hex Hle Hinex.
  destruct (round_first_stage mx ex lx Hm Hex Hle Hinex)
    as (mrs1 & e1 & Heq1 & Hm1 & Hle1 & He1).
  destruct (round_second_stage _ e1 Hm1 He1 Hle1)
    as (mrs2 & e2 & Heq2 & Hm2 & Hle2 & He2).
  unfold binary_round_aux. rewrite Heq1, Heq2.
  destruct (shr_m mrs2) as [ | p | p] eqn:Ep; cbn [nonneg_le].
  - exact I.
  - apply Z.leb_le in He2. rewrite He2. cbn [nonneg_le].
    apply Z.leb_le in He2. auto.
  - lia.
Qed.

End RoundBelowBound.

Lemma nonneg_le_weaken (B B' : Q) (x : Number) :
  B <= B' -> nonneg_le B x -> nonneg_le B' x.
Proof.
  intros HB. destruct x as [[ | ] | [ | ] | | [ | ] m e]; cbn [nonneg_le]; auto.
  intros [H1 H2]. split; [lra | exact H2].
Qed.

(* ===================================================================== *)
(** * Aligning mantissas *)

Lemma Pos_iter_xO (m d : positive) : Zpos (Pos.iter xO m d) = (Zpos m * 2 ^ Zpos d)%Z.
Proof.
  induction d as [ | d IH] using Pos.peano_ind.
  - cbn [Pos.iter]. lia.
  - rewrite Pos.iter_succ, Pos2Z.inj_xO, IH, Pos2Z.inj_succ, Z.pow_succ_r by lia. lia.
Qed.

Lemma shl_align_spec (m : positive) (e e0 : Z) :
  exists m', shl_align m e e0 = (m', Z.min e e0) /\
             Zpos m' = (Zpos m * 2 ^ (e - Z.min e e0))%Z.
Proof.
  unfold shl_align. destruct (e0 - e)%Z as [ | d | d] eqn:Ed.
  - exists m. replace (Z.min e e0) with e by lia. rewrite Z.sub_diag. split; [reflexivity | lia].
  - exists m. replace (Z.min e e0) with e by lia. rewrite Z.sub_diag. split; [reflexivity | lia].
  - exists (Pos.iter xO m d). replace (Z.min e e0) with e0 by lia.
    split; [reflexivity | ]. rewrite Pos_iter_xO. f_equal. f_equal. lia.
Qed.

Lemma shl_align_value (m m' : positive) (e e' : Z) :
  (e' <= e)%Z -> Zpos m' = (Zpos m * 2 ^ (e - e'))%Z ->
  F2Q (Zpos m') e' == F2Q (Zpos m) e.
Proof.
  intros He ->. rewrite F2Q_scale by lia.
  replace (e' + (e - e'))%Z with e by lia. reflexivity.
Qed.

(** A digit count is determined by the two powers of two around the value. *)
Lemma Zdigits2_unique (n a : Z) :
  (2 ^ (a - 1) <= n < 2 ^ a)%Z -> (0 < n)%Z -> (0 < a)%Z -> Zdigits2 n = a.
Proof.
  intros [Hlo Hhi] Hn Ha.
  pose proof (Zdigits2_lower n Hn) as Dlo.
  pose proof (Zdigits2_upper n ltac:(lia)) as Dhi.
  pose proof (Zdigits2_nonneg n) as D0.
  assert (H1 : (2 ^ (a - 1) < 2 ^ Zdigits2 n)%Z) by lia.
  apply Z.pow_lt_mono_r_iff in H1; [ | lia | lia].
  destruct (Z.eq_dec (Zdigits2 n) 0) as [E0 | N0]; [lia | ].
  assert (H2 : (2 ^ (Zdigits2 n - 1) < 2 ^ a)%Z) by lia.
  apply Z.pow_lt_mono_r_iff in H2; [ | lia | lia].
  lia.
Qed.

Lemma Zdigits2_shift (m k : Z) :
  (0 < m)%Z -> (0 <= k)%Z -> Zdigits2 (m * 2 ^ k) = (Zdigits2 m + k)%Z.
Proof.
  intros Hm Hk.
  pose proof (Zdigits2_lower m Hm) as Dlo.
  pose proof (Zdigits2_upper m ltac:(lia)) as Dhi.
  assert (D1 : (0 < Zdigits2 m)%Z) by (destruct m; cbn [Zdigits2]; lia).
  assert (Pk : (0 < 2 ^ k)%Z) by (apply Z.pow_pos_nonneg; lia).
  apply Zdigits2_unique; [ | nia | lia].
  replace (Zdigits2 m + k - 1)%Z with (Zdigits2 m - 1 + k)%Z by lia.
  rewrite !Z.pow_add_r by lia. nia.
Qed.

(* ===================================================================== *)
(** * Integers that are Numbers *)

(** A canonical mantissa goes through [binary_round_aux] unchanged. *)
Lemma binary_round_aux_canonical (m : positive) (e : Z) :
  canonical_mantissa prec emax m e = true -> (e <= emax - prec)%Z ->
  binary_round_aux prec emax false (Zpos m) e loc_Exact = S754_finite false m e.
Proof.
  intros Hc He. pose proof (canonical_exponent m e Hc) as Hf.
  unfold binary_round_aux, shr_fexp. rewrite Hf, Z.sub_diag.
  cbn [shr shr_record_of_loc shr_m loc_of_shr_record round_nearest_even].
  rewrite Hf, Z.sub_diag. cbn [shr shr_record_of_loc shr_m].
  apply Z.leb_le in He. rewrite He. reflexivity.
Qed.

(** A positive integer below [2^53] is a Number, exactly. *)
Lemma Number_of_Z_exact (z : Z) :
  (0 < z < 2 ^ 53)%Z ->
  exists m e, Number_of_Z z = S754_finite false m e /\
              F2Q (Zpos m) e == inject_Z z /\
              canonical_mantissa prec emax m e = true /\
              (- 52 <= e <= 0)%Z.
Proof.
  intros [Hz0 Hz]. destruct z as [ | p | p]; try lia.
  unfold Number_of_Z, binary_normalize, binary_round.
  set (d := Zdigits2 (Zpos p)).
  assert (Hd : (0 < d <= 53)%Z).
  { pose proof (Zdigits2_lower (Zpos p) ltac:(lia)) as Dlo. fold d in Dlo.
    assert (D1 : (0 < d)%Z) by (unfold d; cbn [Zdigits2]; lia).
    split; [exact D1 | ].
    assert (H : (2 ^ (d - 1) < 2 ^ 53)%Z) by lia.
    apply Z.pow_lt_mono_r_iff in H; lia. }
  assert (Hfe : fexp prec emax (Zpos (digits2_pos p) + 0) = (d - 53)%Z).
  { rewrite Z.add_0_r. change (Zpos (digits2_pos p)) with d.
    unfold fexp, emin, prec, emax. lia. }
  rewrite Hfe.
  destruct (shl_align_spec p 0 (d - 53)) as (mz & -> & Hmz).
  replace (Z.min 0 (d - 53)) with (d - 53)%Z in * by lia.
  assert (Hcan : canonical_mantissa prec emax mz (d - 53) = true).
  { unfold canonical_mantissa. apply Z.eqb_eq.
    change (Zpos (digits2_pos mz)) with (Zdigits2 (Zpos mz)).
    rewrite Hmz, Zdigits2_shift by lia. fold d.
    unfold fexp, emin, prec, emax. lia. }
  rewrite binary_round_aux_canonical; [ | exact Hcan | unfold emax, prec; lia].
  exists mz, (d - 53)%Z. repeat split; try lia; [ | exact Hcan].
  rewrite (shl_align_value p mz 0 (d - 53)) by (lia || exact Hmz).
  unfold F2Q. cbn. ring.
Qed.

(* ===================================================================== *)
(** * Bounds through the operations *)

Lemma binary_round_le (mB : positive) (eB : Z) (m : positive) (e : Z) :
  canonical_mantissa prec emax mB eB = true -> (eB <= emax - prec)%Z ->
  (e <= emax - prec)%Z -> F2Q (Zpos m) e <= F2Q (Zpos mB) eB ->
  nonneg_le (F2Q (Zpos mB) eB) (binary_round prec emax false m e).
Proof.
  intros Hc HeB He Hle. unfold binary_round.
  destruct (shl_align_spec m e (fexp prec emax (Zpos (digits2_pos m) + e)))
    as (mz & -> & Hmz).
  set (ez := Z.min e (fexp prec emax (Zpos (digits2_pos m) + e))) in *.
  apply binary_round_aux_le; try assumption; try lia.
  - rewrite (shl_align_value m mz e ez) by (lia || exact Hmz). exact Hle.
  - congruence.
Qed.

(** Addition of two bounded Numbers. *)
Lemma Number_add_le (mB : positive) (eB : Z) (a b : Q) (x y : Number) :
  canonical_mantissa prec emax mB eB = true -> (eB <= emax - prec)%Z ->
  0 <= a -> 0 <= b -> a + b <= F2Q (Zpos mB) eB ->
  nonneg_le a x -> nonneg_le b y ->
  nonneg_le (F2Q (Zpos mB) eB) (Number_add x y).
Proof.
  intros Hc HeB Ha Hb Hab Hx Hy.
  destruct x as [[ | ] | [ | ] | | [ | ] mx ex]; cbn [nonneg_le] in Hx; try contradiction;
  destruct y as [[ | ] | [ | ] | | [ | ] my ey]; cbn [nonneg_le] in Hy; try contradiction;
  unfold Number_add; cbn [SFadd].
  - exact I.
  - cbn [nonneg_le]. destruct Hy as [Hy He]. split; [lra | exact He].
  - cbn [nonneg_le]. destruct Hx as [Hx He]. split; [lra | exact He].
  - destruct Hx as [Hx Hex], Hy as [Hy Hey].
    set (ez := Z.min ex ey).
    destruct (shl_align_spec mx ex ez) as (mx' & -> & Hmx).
    destruct (shl_align_spec my ey ez) as (my' & -> & Hmy).
    replace (Z.min ex ez) with ez in Hmx by lia.
    replace (Z.min ey ez) with ez in Hmy by lia.
    cbn [fst cond_Zopp Z.add binary_normalize].
    apply binary_round_le; try assumption; [lia | ].
    rewrite Pos2Z.inj_add.
    assert (Hsum : F2Q (Zpos mx' + Zpos my') ez == F2Q (Zpos mx') ez + F2Q (Zpos my') ez).
    { unfold F2Q. rewrite inject_Z_plus. ring. }
    rewrite Hsum, (shl_align_value mx mx' ex ez), (shl_align_value my my' ey ez)
      by (lia || assumption).
    lra.
Qed.

(** Multiplication of a bounded Number by a positive constant. *)
Lemma Number_mul_le (mB : positive) (eB : Z) (a : Q) (x : Number) (c : positive) (ec : Z) :
  canonical_mantissa prec emax mB eB = true -> (eB <= emax - prec)%Z ->
  (ec <= 0)%Z -> a * F2Q (Zpos c) ec <= F2Q (Zpos mB) eB ->
  nonneg_le a x ->
  nonneg_le (F2Q (Zpos mB) eB) (Number_mul x (S754_finite false c ec)).
Proof.
  intros Hc HeB Hec Hac Hx.
  destruct x as [[ | ] | [ | ] | | [ | ] mx ex]; cbn [nonneg_le] in Hx; try contradiction;
  unfold Number_mul; cbn [SFmul xorb].
  - exact I.
  - destruct Hx as [Hx Hex].
    apply binary_round_aux_le; try assumption; try lia; [ | congruence].
    rewrite Pos2Z.inj_mul, F2Q_mul.
    pose proof (F2Q_pos c ec) as Pc.
    assert (F2Q (Zpos mx) ex * F2Q (Zpos c) ec <= a * F2Q (Zpos c) ec).
    { apply Qmult_le_compat_r; [exact Hx | lra]. }
    lra.
Qed.

(* ===================================================================== *)
(** * Division *)

Lemma new_location_inexact (n r : Z) : new_location n r <> loc_Exact -> r <> 0%Z.
Proof.
  intros H ->. apply H. unfold new_location, new_location_even, new_location_odd.
  destruct (Z.even n); reflexivity.
Qed.

(** The quotient and remainder [SFdiv_core_binary] hands to the rounding. *)
Lemma SFdiv_core_binary_spec (mx my : positive) (ex ey : Z) :
  let e' := Z.min (fexp prec emax (Zdigits2 (Zpos mx) + ex - (Zdigits2 (Zpos my) + ey)))
                  (ex - ey) in
  exists q r,
    SFdiv_core_binary prec emax (Zpos mx) ex (Zpos my) ey
      = (q, e', new_location (Zpos my) r) /\
    (Zpos mx * 2 ^ (ex - ey - e') = Zpos my * q + r)%Z /\
    (0 <= r < Zpos my)%Z /\ (0 <= q)%Z.
Proof.
  intros e'. unfold SFdiv_core_binary. fold e'.
  set (s := (ex - ey - e')%Z).
  assert (Hs : (0 <= s)%Z) by (unfold s, e'; lia).
  set (m' := match s with
             | Z0 => Zpos mx | Zpos _ => Z.shiftl (Zpos mx) s | Zneg _ => 0%Z end).
  assert (Hm' : m' = (Zpos mx * 2 ^ s)%Z).
  { unfold m'. destruct s as [ | p | p] eqn:Es.
    - lia.
    - apply Z.shiftl_mul_pow2. lia.
    - lia. }
  pose proof (Z_div_mod m' (Zpos my) ltac:(lia)) as Hdiv.
  destruct (Z.div_eucl m' (Zpos my)) as [q r]. destruct Hdiv as [Heq Hr].
  exists q, r. split; [reflexivity | ]. rewrite <- Hm'.
  assert (P : (0 < 2 ^ s)%Z) by (apply Z.pow_pos_nonneg; lia).
  repeat split; try lia. nia.
Qed.

(** The quotient has the digits the exponent choice counted on. *)
Lemma quotient_digits (mx my : positive) (q r s : Z) :
  (0 <= s)%Z -> (Zpos mx * 2 ^ s = Zpos my * q + r)%Z ->
  (0 <= r < Zpos my)%Z -> (0 <= q)%Z ->
  (Zdigits2 (Zpos mx) - Zdigits2 (Zpos my) + s <= Zdigits2 q)%Z.
Proof.
  intros Hs Heq Hr Hq.
  pose proof (Zdigits2_nonneg q) as Dq.
  set (d1 := Zdigits2 (Zpos mx)). set (d2 := Zdigits2 (Zpos my)).
  destruct (Z_lt_le_dec (d1 - d2 + s - 1) 0) as [Hneg | Hu]; [lia | ].
  pose proof (Zdigits2_lower (Zpos mx) ltac:(lia)) as L1. fold d1 in L1.
  pose proof (Zdigits2_upper (Zpos my) ltac:(lia)) as U2. fold d2 in U2.
  pose proof (Zdigits2_upper q Hq) as Uq.
  assert (D1 : (0 < d1)%Z) by (unfold d1; cbn [Zdigits2]; lia).
  assert (D2 : (0 < d2)%Z) by (unfold d2; cbn [Zdigits2]; lia).
  set (u := (d1 - d2 + s - 1)%Z) in *.
  assert (Hpow : (2 ^ u * 2 ^ d2 = 2 ^ (d1 - 1) * 2 ^ s)%Z).
  { rewrite <- !Z.pow_add_r by lia. f_equal. unfold u. lia. }
  assert (Pu : (0 < 2 ^ u)%Z) by (apply Z.pow_pos_nonneg; lia).
  assert (Ps : (0 < 2 ^ s)%Z) by (apply Z.pow_pos_nonneg; lia).
  assert (Hq' : (2 ^ u <= q)%Z) by nia.
  assert (Hlt : (2 ^ u < 2 ^ Zdigits2 q)%Z) by lia.
  apply Z.pow_lt_mono_r_iff in Hlt; [ | lia | lia].
  unfold u in Hlt. lia.
Qed.

Lemma canonical_one : canonical_mantissa prec emax 4503599627370496 (-52) = true.
Proof. reflexivity. Qed.

Lemma F2Q_one_value : F2Q 4503599627370496 (-52) == 1.
Proof. reflexivity. Qed.

(** A quotient of a positive Number by a larger one is at most 1. *)
Lemma Number_div_le_one (mx my : positive) (ex ey : Z) :
  F2Q (Zpos mx) ex <= F2Q (Zpos my) ey -> (ex - ey <= emax - prec)%Z ->
  nonneg_le 1 (Number_div (S754_finite false mx ex) (S754_finite false my ey)).
Proof.
  intros Hle He.
  destruct (SFdiv_core_binary_spec mx my ex ey) as (q & r & Hcore & Heq & Hr & Hq).
  set (e' := Z.min (fexp prec emax (Zdigits2 (Zpos mx) + ex - (Zdigits2 (Zpos my) + ey)))
                   (ex - ey)) in *.
  unfold Number_div. cbn [SFdiv]. rewrite Hcore. cbn [xorb].
  apply (nonneg_le_weaken (F2Q 4503599627370496 (-52))).
  { rewrite F2Q_one_value. apply Qle_refl. }
  assert (Hs : (0 <= ex - ey - e')%Z) by (unfold e'; lia).
  assert (Hprod : F2Q q e' * F2Q (Zpos my) ey
                  == F2Q (Zpos mx) ex - F2Q r (e' + ey)).
  { rewrite <- F2Q_mul.
    assert (Hx : F2Q (Zpos mx) ex == F2Q (Zpos mx * 2 ^ (ex - ey - e')) (e' + ey)).
    { rewrite F2Q_scale by lia.
      replace (e' + ey + (ex - ey - e'))%Z with ex by lia. reflexivity. }
    rewrite Hx, Heq. unfold F2Q. rewrite inject_Z_plus, !inject_Z_mult. ring. }
  pose proof (F2Q_pos my ey) as Py.
  pose proof (F2Q_nonneg r (e' + ey) ltac:(lia)) as Pr.
  apply binary_round_aux_le.
  - exact canonical_one.
  - unfold emax, prec. lia.
  - exact Hq.
  - unfold e'. lia.
  - rewrite F2Q_one_value.
    apply (Qmult_lt_0_le_reg_r _ _ (F2Q (Zpos my) ey)); [exact Py | ]. lra.
  - intros Hloc. apply new_location_inexact in Hloc. split.
    + pose proof (quotient_digits mx my q r _ Hs Heq Hr Hq) as Hd.
      transitivity (fexp prec emax (Zdigits2 (Zpos mx) + ex - (Zdigits2 (Zpos my) + ey))).
      * unfold e'. lia.
      * apply fexp_mono. lia.
    + rewrite F2Q_one_value.
      assert (Pr' : 0 < F2Q r (e' + ey)).
      { destruct r as [ | pr | pr]; [lia | apply F2Q_pos | lia]. }
      destruct (Qlt_le_dec (F2Q q e') 1) as [Hlt | Hge]; [exact Hlt | exfalso].
      assert (1 * F2Q (Zpos my) ey <= F2Q q e' * F2Q (Zpos my) ey).
      { apply Qmult_le_compat_r; [exact Hge | lra]. }
      lra.
Qed.

(* ===================================================================== *)
(** * [Math.max] and [Math.round] *)

Lemma Number_of_Z_one : Number_of_Z 1 = S754_finite false 4503599627370496 (-52).
Proof. reflexivity. Qed.

Lemma Number_of_Z_20 : Number_of_Z 20 = S754_finite false 5629499534213120 (-48).
Proof. reflexivity. Qed.

Lemma Number_of_Z_80 : Number_of_Z 80 = S754_finite false 5629499534213120 (-46).
Proof. reflexivity. Qed.

(** [Math.max(array.length, 1)] is the Number of [max (length array) 1]. *)
Lemma Math_max_length (k : nat) :
  (Z.of_nat k < 2 ^ 53)%Z ->
  Math_max (Number_of_nat k) (Number_of_Z 1) = Number_of_nat (Nat.max k 1).
Proof.
  intros Hk. destruct k as [ | k]; [reflexivity | ].
  replace (Nat.max (S k) 1) with (S k) by lia.
  unfold Number_of_nat.
  destruct (Number_of_Z_exact (Z.of_nat (S k)) ltac:(lia)) as (m & e & -> & Hv & _ & He).
  rewrite Number_of_Z_one. unfold Math_max. cbn [SFcompare].
  destruct (Z.compare_spec e (-52)) as [-> | Hlt | Hgt]; [ | lia | reflexivity].
  assert (Hm : (4503599627370496 <= Zpos m)%Z).
  { apply (F2Q_le_inv _ _ (-52)). rewrite Hv, F2Q_one_value.
    replace 1 with (inject_Z 1) by reflexivity. rewrite <- Zle_Qle. lia. }
  rewrite Pos.compare_cont_spec.
  destruct (m ?= 4503599627370496)%positive eqn:Ec; cbn [Pos.switch_Eq]; try reflexivity.
  apply Pos.compare_lt_iff, Pos2Z.pos_lt_pos in Ec. lia.
Qed.

Lemma F2Q_exponent_0 (m : Z) : F2Q m 0 == inject_Z m.
Proof. unfold F2Q. cbn. ring. Qed.

(** [round_half_up] is the nearest integer, the upper one at a half. *)
Lemma round_half_up_nearest (s : bool) (m : positive) (e : Z) :
  inject_Z (round_half_up s m e) <= F2Q (cond_Zopp s (Zpos m)) e + (1 # 2) /\
  F2Q (cond_Zopp s (Zpos m)) e + (1 # 2) < inject_Z (round_half_up s m e) + 1.
Proof.
  unfold round_half_up. set (sm := cond_Zopp s (Zpos m)).
  destruct (Z.leb_spec 0 e) as [He | He].
  - rewrite <- F2Q_exponent_0, F2Q_scale, Z.add_0_l by lia. lra.
  - set (P := (2 ^ (- e))%Z).
    assert (HP : (0 < P)%Z) by (apply Z.pow_pos_nonneg; lia).
    assert (H2P : (2 ^ (1 - e) = 2 * P)%Z).
    { unfold P. replace (1 - e)%Z with (Z.succ (- e)) by lia.
      rewrite Z.pow_succ_r by lia. reflexivity. }
    rewrite H2P. set (z := ((2 * sm + P) / (2 * P))%Z).
    assert (Hlo : (2 * P * z <= 2 * sm + P)%Z) by (apply Z.mul_div_le; lia).
    assert (Hhi : (2 * sm + P < 2 * P * (z + 1))%Z).
    { unfold z. rewrite Z.mul_add_distr_l, Z.mul_1_r.
      pose proof (Z.mul_succ_div_gt (2 * sm + P) (2 * P) ltac:(lia)). lia. }
    assert (HX : F2Q sm e * inject_Z P == inject_Z sm).
    { unfold F2Q, P. rewrite <- (pow2_Z (- e)) by lia.
      rewrite <- Qmult_assoc, <- pow2_add. replace (e + - e)%Z with 0%Z by lia.
      change (2 ^ 0) with 1. ring. }
    assert (Qp : 0 < inject_Z P).
    { replace 0 with (inject_Z 0) by reflexivity. rewrite <- Zlt_Qlt. exact HP. }
    rewrite Zle_Qle in Hlo. rewrite Zlt_Qlt in Hhi.
    repeat (rewrite inject_Z_mult in Hlo || rewrite inject_Z_plus in Hlo).
    repeat (rewrite inject_Z_mult in Hhi || rewrite inject_Z_plus in Hhi).
    change (inject_Z 2) with 2 in Hlo, Hhi. change (inject_Z 1) with 1 in Hhi.
    split.
    + apply (Qmult_lt_0_le_reg_r _ _ (inject_Z P)); [exact Qp | ]. nra.
    + apply (Qmult_lt_r _ _ (inject_Z P)); [exact Qp | ]. nra.
Qed.

(** [Math.round] of a Number between [0] and [N] is an integer between
    [0] and [N]. *)
Lemma Math_round_le (N : Z) (x : Number) :
  (0 <= N)%Z -> nonneg_le (inject_Z N) x ->
  exists z, (0 <= z <= N)%Z /\ Math_round x = Number_of_Z z.
Proof.
  intros HN Hx.
  destruct x as [[ | ] | [ | ] | | [ | ] m e]; cbn [nonneg_le] in Hx; try contradiction.
  - exists 0%Z. split; [lia | reflexivity].
  - destruct Hx as [Hx _]. exists (round_half_up false m e). split; [ | reflexivity].
    unfold round_half_up. cbn [cond_Zopp].
    destruct (Z.leb_spec 0 e) as [He | He].
    + assert (P : (0 < 2 ^ e)%Z) by (apply Z.pow_pos_nonneg; lia).
      split; [nia | ].
      rewrite Zle_Qle, <- F2Q_exponent_0, F2Q_scale by lia.
      rewrite Z.add_0_l. exact Hx.
    + set (P := (2 ^ (- e))%Z).
      assert (HP : (0 < P)%Z) by (apply Z.pow_pos_nonneg; lia).
      assert (H2P : (2 ^ (1 - e) = 2 * P)%Z).
      { unfold P. replace (1 - e)%Z with (Z.succ (- e)) by lia.
        rewrite Z.pow_succ_r by lia. reflexivity. }
      rewrite H2P.
      assert (Hm : (Zpos m <= N * P)%Z).
      { apply (F2Q_le_inv _ _ e). unfold P. rewrite F2Q_scale by lia.
        replace (e + - e)%Z with 0%Z by lia. rewrite F2Q_exponent_0. exact Hx. }
      split.
      * apply Z.div_pos; lia.
      * assert (H : ((2 * Zpos m + P) / (2 * P) < N + 1)%Z).
        { apply Z.div_lt_upper_bound; nia. }
        lia.
Qed.

(* ===================================================================== *)
(** * The score is an integer between 0 and 100 *)

(** A count of matches, divided by the count it was taken from. *)
Lemma ratio_le_one (m r : nat) :
  (m <= r)%nat -> (1 <= r)%nat -> (Z.of_nat r < 2 ^ 53)%Z ->
  nonneg_le 1 (Number_div (Number_of_nat m) (Number_of_nat r)).
Proof.
  intros Hmr Hr Hbound. unfold Number_of_nat.
  destruct (Number_of_Z_exact (Z.of_nat r) ltac:(lia)) as (my & ey & -> & Hvy & _ & Hey).
  destruct m as [ | m].
  - cbn. exact I.
  - destruct (Number_of_Z_exact (Z.of_nat (S m)) ltac:(lia)) as (mx & ex & -> & Hvx & _ & Hex).
    apply Number_div_le_one.
    + rewrite Hvx, Hvy, <- Zle_Qle. lia.
    + unfold emax, prec. lia.
Qed.

Lemma canonical_20 : canonical_mantissa prec emax 5629499534213120 (-48) = true.
Proof. reflexivity. Qed.

Lemma canonical_80 : canonical_mantissa prec emax 5629499534213120 (-46) = true.
Proof. reflexivity. Qed.

Lemma canonical_100 : canonical_mantissa prec emax 7036874417766400 (-46) = true.
Proof. reflexivity. Qed.

Lemma F2Q_20_value : F2Q 5629499534213120 (-48) == 20.
Proof. reflexivity. Qed.

Lemma F2Q_80_value : F2Q 5629499534213120 (-46) == 80.
Proof. reflexivity. Qed.

Lemma F2Q_100_value : F2Q 7036874417766400 (-46) == 100.
Proof. reflexivity. Qed.

(** The arithmetic of [calculateMatchScore] on any counts a job can give. *)
Lemma score_of_counts (m r n k : nat) :
  (m <= r)%nat -> (1 <= r)%nat -> (Z.of_nat r < 2 ^ 53)%Z ->
  (n <= k)%nat -> (1 <= k)%nat -> (Z.of_nat k < 2 ^ 53)%Z ->
  exists z, (0 <= z <= 100)%Z /\
    Math_round
      (Number_add
         (Number_mul (Number_div (Number_of_nat m) (Number_of_nat r)) (Number_of_Z 80))
         (Number_mul (Number_div (Number_of_nat n) (Number_of_nat k)) (Number_of_Z 20)))
    = Number_of_Z z.
Proof.
  intros Hmr Hr Hrb Hnk Hk Hkb.
  apply Math_round_le; [lia | ].
  apply (nonneg_le_weaken (F2Q 7036874417766400 (-46))).
  { rewrite F2Q_100_value. apply Qle_refl. }
  apply (Number_add_le _ _ (F2Q 5629499534213120 (-46)) (F2Q 5629499534213120 (-48))).
  - exact canonical_100.
  - unfold emax, prec. lia.
  - rewrite F2Q_80_value. discriminate.
  - rewrite F2Q_20_value. discriminate.
  - rewrite F2Q_80_value, F2Q_20_value, F2Q_100_value. discriminate.
  - rewrite Number_of_Z_80.
    apply (Number_mul_le _ _ 1); [exact canonical_80 | unfold emax, prec; lia | lia | | ].
    + rewrite Qmult_1_l. apply Qle_refl.
    + apply ratio_le_one; assumption.
  - rewrite Number_of_Z_20.
    apply (Number_mul_le _ _ 1); [exact canonical_20 | unfold emax, prec; lia | lia | | ].
    + rewrite Qmult_1_l. apply Qle_refl.
    + apply ratio_le_one; assumption.
Qed.

(** The arithmetic is that of binary64, not of the rationals: with 1 of 96
    required and 1 of 3 nice-to-have skills matched the exact sum is 7.5,
    the sum of the rounded products lies just below it, and the score is 7. *)
Lemma score_arithmetic_is_binary64 :
  spec_total_score 1 96 1 3 = Number_of_Z 7 /\
  (inject_Z 1 / inject_Z 96 * 80 + inject_Z 1 / inject_Z 3 * 20 == 15 # 2)%Q.
Proof. split; [vm_compute; reflexivity | reflexivity]. Qed.

Lemma filter_length_le {A : Type} (f : A -> bool) (l : list A) :
  (List.length (filter f l) <= List.length l)%nat.
Proof.
  induction l as [ | a l IH]; cbn [filter List.length]; [lia | ].
  destruct (f a); cbn [List.length]; lia.
Qed.

(** The score of any job whose arrays have a JavaScript length. *)
Lemma calculateMatchScore_integer (resumeSkills : list string) (j : Job) :
  array_length_ok (or_empty (requirements j)) ->
  array_length_ok (or_empty (nice_to_have j)) ->
  exists z, (0 <= z <= 100)%Z /\ calculateMatchScore resumeSkills j = Number_of_Z z.
Proof.
  unfold array_length_ok, calculateMatchScore. intros Hreq Hnice.
  destruct (Nat.eqb_spec (List.length (or_empty (requirements j))) 0) as [E | NE].
  - exists 0%Z. split; [lia | reflexivity].
  - rewrite Math_max_length by lia.
    apply score_of_counts; try lia; try apply filter_length_le.
    pose proof (filter_length_le (someMatch resumeSkills) (or_empty (nice_to_have j))). lia.
Qed.

(* ===================================================================== *)
(** * Substrings *)

Lemma prefix_app (t s : string) :
  String.prefix t s = true <-> exists post, s = (t ++ post)%string.
Proof.
  revert s. induction t as [ | a t IH]; intros [ | b s]; simpl.
  - split; [intros _; exists EmptyString; reflexivity | reflexivity].
  - split; [intros _; exists (String b s); reflexivity | reflexivity].
  - split; [discriminate | intros [post H]; discriminate].
  - destruct (ascii_dec a b) as [-> | Hne].
    + rewrite IH. split; intros [post H]; exists post.
      * rewrite H. reflexivity.
      * congruence.
    + split; [discriminate | intros [post H]; congruence].
Qed.

(** [includes] decides [substring_of]. *)
Lemma includes_spec (s t : string) : includes s t = true <-> substring_of t s.
Proof.
  unfold substring_of. induction s as [ | c s IH]; cbn [includes].
  - rewrite orb_false_r, prefix_app. split.
    + intros [post H]. exists EmptyString, post. exact H.
    + intros (pre & post & H). destruct pre; [ | discriminate]. exists post. exact H.
  - rewrite orb_true_iff, prefix_app, IH. split.
    + intros [[post H] | (pre & post & H)].
      * exists EmptyString, post. exact H.
      * exists (String c pre), post. rewrite H. reflexivity.
    + intros (pre & post & H). destruct pre as [ | c' pre].
      * left. exists post. exact H.
      * right. exists pre, post. cbn in H. congruence.
Qed.

Lemma skillMatches_spec (resumeSkill skill : string) :
  skillMatches resumeSkill skill = true <->
  substring_of (toLowerCase skill) (toLowerCase resumeSkill) \/
  substring_of (toLowerCase resumeSkill) (toLowerCase skill).
Proof. unfold skillMatches. rewrite orb_true_iff, !includes_spec. reflexivity. Qed.

Lemma skillMatches_sym (a b : string) : skillMatches a b = skillMatches b a.
Proof. unfold skillMatches. apply orb_comm. Qed.

Lemma someMatch_In (resumeSkills : list string) (resumeSkill skill : string) :
  In resumeSkill resumeSkills -> skillMatches resumeSkill skill = true ->
  someMatch resumeSkills skill = true.
Proof.
  intros Hin Hm. unfold someMatch. apply existsb_exists. exists resumeSkill. auto.
Qed.

(* ===================================================================== *)
(** * The loop of [analyzeResume] *)

Lemma matchJob_present (resumeSkills : list string) (j : Job) :
  has_requirements j -> matchJob resumeSkills j = Returned (resultOf resumeSkills j).
Proof.
  unfold has_requirements, matchJob, resultOf, getMatchedSkills, getMissingSkills.
  destruct (requirements j) as [reqs | ]; [reflexivity | congruence].
Qed.

Lemma matchJob_absent (resumeSkills : list string) (j : Job) :
  requirements j = None -> matchJob resumeSkills j = Thrown TypeError.
Proof. unfold matchJob, getMatchedSkills. intros ->. reflexivity. Qed.

Lemma matchJob_returned (resumeSkills : list string) (j : Job) (r : MatchResult) :
  matchJob resumeSkills j = Returned r ->
  has_requirements j /\ r = resultOf resumeSkills j.
Proof.
  intros H. destruct (requirements j) as [reqs | ] eqn:E.
  - assert (Hp : has_requirements j) by (unfold has_requirements; congruence).
    rewrite (matchJob_present _ _ Hp) in H. split; [exact Hp | congruence].
  - rewrite (matchJob_absent _ _ E) in H. discriminate.
Qed.

Lemma forEachJob_present (resumeSkills : list string) (jobData : list Job) :
  Forall has_requirements jobData ->
  forall matches,
    forEachJob resumeSkills jobData matches
    = Returned (matches ++ map (resultOf resumeSkills) jobData).
Proof.
  induction 1 as [ | j rest Hj Hrest IH]; intros matches; cbn [forEachJob map].
  - rewrite app_nil_r. reflexivity.
  - rewrite (matchJob_present _ _ Hj). cbn [bind]. rewrite IH, <- app_assoc. reflexivity.
Qed.

Lemma forEachJob_returned (resumeSkills : list string) (jobData : list Job) :
  forall matches out,
    forEachJob resumeSkills jobData matches = Returned out ->
    Forall has_requirements jobData /\
    out = matches ++ map (resultOf resumeSkills) jobData.
Proof.
  induction jobData as [ | j rest IH]; intros matches out H; cbn [forEachJob map] in *.
  - rewrite app_nil_r. split; [constructor | congruence].
  - destruct (matchJob resumeSkills j) as [r | e] eqn:Er; cbn [bind] in H; [ | discriminate].
    apply matchJob_returned in Er. destruct Er as [Hj ->].
    apply IH in H. destruct H as [Hrest ->]. split; [constructor; assumption | ].
    rewrite <- app_assoc. reflexivity.
Qed.

Lemma forEachJob_absent (resumeSkills : list string) (jobData : list Job) :
  Exists (fun j => requirements j = None) jobData ->
  forall matches, forEachJob resumeSkills jobData matches = Thrown TypeError.
Proof.
  intros Hex matches.
  destruct (forEachJob resumeSkills jobData matches) as [out | []] eqn:E; [ | reflexivity].
  apply forEachJob_returned in E. destruct E as [Hall _].
  apply Exists_exists in Hex. destruct Hex as (j & Hin & Hnone).
  rewrite Forall_forall in Hall. specialize (Hall j Hin). contradiction.
Qed.

(* ===================================================================== *)
(** * [Array.prototype.sort] *)

Section ArraySort.

Variable A : Type.
Variable comparefn : A -> A -> Number.

Lemma sort_insert_perm (x : A) (l : list A) :
  Permutation (x :: l) (sort_insert comparefn x l).
Proof.
  induction l as [ | y rest IH]; cbn [sort_insert]; [reflexivity | ].
  destruct (Number_gt0 (comparefn x y)); [ | reflexivity].
  rewrite perm_swap. apply perm_skip, IH.
Qed.

Lemma Array_sort_perm (l : list A) : Permutation l (Array_sort comparefn l).
Proof.
  induction l as [ | x l IH]; cbn [Array_sort fold_right]; [reflexivity | ].
  rewrite <- sort_insert_perm. apply perm_skip, IH.
Qed.

(** The elements the comparator is consistent on, and the order it gives. *)
Variable carrier : A -> Prop.
Variable above : A -> A -> Prop.

Hypothesis above_trans :
  forall x y z, carrier x -> carrier y -> carrier z ->
                above x y -> above y z -> above x z.
Hypothesis stays_before :
  forall x y, carrier x -> carrier y ->
              Number_gt0 (comparefn x y) = false -> above x y.
Hypothesis goes_behind :
  forall x y, carrier x -> carrier y ->
              Number_gt0 (comparefn x y) = true -> above y x.

Lemma sort_insert_sorted (x : A) (l : list A) :
  carrier x -> Forall carrier l ->
  StronglySorted above l -> StronglySorted above (sort_insert comparefn x l).
Proof.
  intros Hx Hl Hs. induction Hs as [ | y rest Hrest IH Hy]; cbn [sort_insert].
  - constructor; constructor.
  - inversion Hl as [ | ? ? Cy Crest]; subst.
    destruct (Number_gt0 (comparefn x y)) eqn:Ecmp.
    + constructor; [apply IH; exact Crest | ].
      apply (Permutation_Forall (sort_insert_perm x rest)).
      constructor; [apply goes_behind; assumption | exact Hy].
    + constructor; [constructor; assumption | ].
      assert (Hxy : above x y) by (apply stays_before; assumption).
      constructor; [exact Hxy | ].
      rewrite Forall_forall in *. intros z Hz.
      apply (above_trans x y z); auto.
Qed.

Lemma Array_sort_sorted (l : list A) :
  Forall carrier l -> StronglySorted above (Array_sort comparefn l).
Proof.
  induction 1 as [ | x l Hx Hl IH]; cbn [Array_sort fold_right]; [constructor | ].
  apply sort_insert_sorted; [exact Hx | | exact IH].
  apply (Permutation_Forall (Array_sort_perm l)). exact Hl.
Qed.

(** A class of elements the comparator never moves past each other. *)
Variable same : A -> bool.
Hypothesis same_not_moved :
  forall x y, carrier x -> carrier y -> same x = true -> same y = true ->
              Number_gt0 (comparefn x y) = false.

Lemma sort_insert_stable (x : A) (l : list A) :
  carrier x -> Forall carrier l ->
  filter same (sort_insert comparefn x l) = filter same (x :: l).
Proof.
  intros Hx Hl. induction Hl as [ | y rest Hy Hrest IH]; cbn [sort_insert]; [reflexivity | ].
  destruct (Number_gt0 (comparefn x y)) eqn:Ecmp; [ | reflexivity].
  cbn [filter] in *. rewrite IH.
  destruct (same x) eqn:Sx, (same y) eqn:Sy; try reflexivity.
  rewrite (same_not_moved x y Hx Hy Sx Sy) in Ecmp. discriminate.
Qed.

Lemma Array_sort_stable (l : list A) :
  Forall carrier l -> filter same (Array_sort comparefn l) = filter same l.
Proof.
  induction 1 as [ | x l Hx Hl IH]; cbn [Array_sort fold_right]; [reflexivity | ].
  rewrite sort_insert_stable.
  - cbn [filter]. fold (Array_sort comparefn l). rewrite IH. reflexivity.
  - exact Hx.
  - apply (Permutation_Forall (Array_sort_perm l)). exact Hl.
Qed.

End ArraySort.

(* ===================================================================== *)
(** * Comparing integer scores *)

Lemma In_score_range (z : Z) : (0 <= z <= 100)%Z -> In z score_range.
Proof.
  intros Hz. unfold score_range. rewrite <- (Z2Nat.id z) by lia.
  apply in_map, in_seq. lia.
Qed.

(** On the 101 possible scores, subtraction and comparison of Numbers agree
    with the integers. *)
Lemma score_comparisons_checked :
  forallb (fun a => forallb (fun b =>
      Bool.eqb (Number_gt0 (Number_sub (Number_of_Z b) (Number_of_Z a))) (a <? b)%Z
      && Bool.eqb (SFleb (Number_of_Z a) (Number_of_Z b)) (a <=? b)%Z
      && Bool.eqb (SFeqb (Number_of_Z a) (Number_of_Z b)) (a =? b)%Z)
    score_range) score_range = true.
Proof. vm_compute. reflexivity. Qed.

Lemma score_comparisons (a b : Z) :
  (0 <= a <= 100)%Z -> (0 <= b <= 100)%Z ->
  Number_gt0 (Number_sub (Number_of_Z b) (Number_of_Z a)) = (a <? b)%Z /\
  SFleb (Number_of_Z a) (Number_of_Z b) = (a <=? b)%Z /\
  SFeqb (Number_of_Z a) (Number_of_Z b) = (a =? b)%Z.
Proof.
  intros Ha Hb. pose proof score_comparisons_checked as H.
  rewrite forallb_forall in H. specialize (H a (In_score_range a Ha)).
  rewrite forallb_forall in H. specialize (H b (In_score_range b Hb)).
  rewrite !andb_true_iff in H. destruct H as [[H1 H2] H3].
  apply eqb_prop in H1, H2, H3. auto.
Qed.

(** The ranking of [analyzeResume], on results whose scores are integers. *)
Lemma ranking_sorted (matches : list MatchResult) :
  Forall (fun r => integer_score (matchScore r)) matches ->
  StronglySorted ranked_above (Array_sort byScoreDescending matches).
Proof.
  apply Array_sort_sorted; unfold ranked_above, byScoreDescending.
  - intros x y z (a & Ha & ->) (b & Hb & ->) (c & Hc & ->).
    rewrite (proj1 (proj2 (score_comparisons b a Hb Ha))).
    rewrite (proj1 (proj2 (score_comparisons c b Hc Hb))).
    rewrite (proj1 (proj2 (score_comparisons c a Hc Ha))). lia.
  - intros x y (a & Ha & ->) (b & Hb & ->).
    rewrite (proj1 (score_comparisons a b Ha Hb)).
    rewrite (proj1 (proj2 (score_comparisons b a Hb Ha))). lia.
  - intros x y (a & Ha & ->) (b & Hb & ->).
    rewrite (proj1 (score_comparisons a b Ha Hb)).
    rewrite (proj1 (proj2 (score_comparisons a b Ha Hb))). lia.
Qed.

Lemma ranking_stable (matches : list MatchResult) (r : MatchResult) :
  Forall (fun r => integer_score (matchScore r)) matches ->
  integer_score (matchScore r) ->
  filter (fun r' => SFeqb (matchScore r') (matchScore r)) (Array_sort byScoreDescending matches)
  = filter (fun r' => SFeqb (matchScore r') (matchScore r)) matches.
Proof.
  intros Hall (c & Hc & ->).
  apply (Array_sort_stable _ _ (fun r => integer_score (matchScore r))); [ | exact Hall].
  unfold byScoreDescending.
  intros x y (a & Ha & ->) (b & Hb & ->).
  rewrite (proj2 (proj2 (score_comparisons a c Ha Hc))).
  rewrite (proj2 (proj2 (score_comparisons b c Hb Hc))).
  rewrite (proj1 (score_comparisons a b Ha Hb)). lia.
Qed.

Lemma resultOf_integer_scores (resumeSkills : list string) (jobData : list Job) :
  Forall arrays_ok jobData ->
  Forall (fun r => integer_score (matchScore r)) (map (resultOf resumeSkills) jobData).
Proof.
  intros H. rewrite Forall_map. eapply Forall_impl; [ | exact H].
  intros j [Hreq Hnice]. cbn [resultOf matchScore].
  apply calculateMatchScore_integer; assumption.
Qed.

Lemma analyzeSkills_present (jobData : list Job) (resumeSkills : list string) :
  Forall has_requirements jobData ->
  analyzeSkills jobData resumeSkills
  = Returned (Array_sort byScoreDescending (map (resultOf resumeSkills) jobData)).
Proof.
  intros H. unfold analyzeSkills. rewrite (forEachJob_present _ _ H). reflexivity.
Qed.

Lemma analyzeSkills_returned (jobData : list Job) (resumeSkills : list string)
    (out : list MatchResult) :
  analyzeSkills jobData resumeSkills = Returned out ->
  Forall has_requirements jobData /\
  out = Array_sort byScoreDescending (map (resultOf resumeSkills) jobData).
Proof.
  unfold analyzeSkills. intros H.
  destruct (forEachJob resumeSkills jobData []) as [matches | e] eqn:E;
    cbn [bind] in H; [ | discriminate].
  apply forEachJob_returned in E. destruct E as [Hall ->]. cbn [app] in H.
  split; [exact Hall | congruence].
Qed.

Lemma analyzeSkills_absent (jobData : list Job) (resumeSkills : list string) :
  Exists (fun j => requirements j = None) jobData ->
  analyzeSkills jobData resumeSkills = Thrown TypeError.
Proof.
  intros H. unfold analyzeSkills. rewrite (forEachJob_absent _ _ H). reflexivity.
Qed.

(* ===================================================================== *)
(** * A resume without skills *)

Lemma filter_someMatch_nil (l : list string) : filter (someMatch []) l = [].
Proof. induction l as [ | a l IH]; [reflexivity | exact IH]. Qed.

Lemma filter_not_someMatch_nil (l : list string) :
  filter (fun skill => negb (someMatch [] skill)) l = l.
Proof.
  induction l as [ | a l IH]; [reflexivity | ].
  change (a :: filter (fun skill => negb (someMatch [] skill)) l = a :: l).
  f_equal. exact IH.
Qed.

Lemma Number_div_zero (r : nat) :
  (1 <= r)%nat -> (Z.of_nat r < 2 ^ 53)%Z ->
  Number_div (Number_of_nat 0) (Number_of_nat r) = S754_zero false.
Proof.
  intros Hr Hb. unfold Number_of_nat.
  destruct (Number_of_Z_exact (Z.of_nat r) ltac:(lia)) as (m & e & -> & _).
  reflexivity.
Qed.

Lemma calculateMatchScore_no_skills (j : Job) :
  arrays_ok j -> calculateMatchScore [] j = Number_of_Z 0.
Proof.
  unfold arrays_ok, array_length_ok, calculateMatchScore. intros [Hreq Hnice].
  destruct (Nat.eqb_spec (List.length (or_empty (requirements j))) 0) as [E | NE];
    [reflexivity | ].
  rewrite !filter_someMatch_nil. cbn [List.length].
  rewrite Math_max_length by lia.
  rewrite !Number_div_zero by lia. reflexivity.
Qed.

Lemma Array_sort_all_zero (l : list MatchResult) :
  Forall (fun r => matchScore r = Number_of_Z 0) l ->
  Array_sort byScoreDescending l = l.
Proof.
  induction 1 as [ | x l Hx Hl IH]; [reflexivity | ].
  cbn [Array_sort fold_right]. fold (Array_sort byScoreDescending l). rewrite IH.
  destruct Hl as [ | y rest Hy Hrest]; [reflexivity | ].
  cbn [sort_insert]. unfold byScoreDescending. rewrite Hx, Hy. reflexivity.
Qed.

(* ===================================================================== *)
(** * Matched and missing skills *)

Lemma filter_subsequence {A : Type} (f : A -> bool) (l : list A) :
  subsequence (filter f l) l.
Proof.
  induction l as [ | a l IH]; cbn [filter]; [constructor | ].
  destruct (f a); constructor; exact IH.
Qed.

Lemma filter_partition_length {A : Type} (f : A -> bool) (l : list A) :
  (List.length (filter f l) + List.length (filter (fun a => negb (f a)) l)
   = List.length l)%nat.
Proof.
  induction l as [ | a l IH]; cbn [filter List.length]; [reflexivity | ].
  destruct (f a); cbn [negb List.length]; lia.
Qed.

Lemma filter_partition_perm {A : Type} (f : A -> bool) (l : list A) :
  Permutation (filter f l ++ filter (fun a => negb (f a)) l) l.
Proof.
  induction l as [ | a l IH]; cbn [filter]; [reflexivity | ].
  destruct (f a); cbn [negb app].
  - apply perm_skip, IH.
  - rewrite <- Permutation_middle. apply perm_skip, IH.
Qed.

(* ===================================================================== *)
(** * The claims *)

(** C1, as the code has it: a job whose list of required skills is empty (or
    missing) gets the total score 0 from the guard at the head of
    [calculateMatchScore], whatever its nice-to-have skills and the resume
    are. *)
Theorem C1_no_requirements_scores_zero (resumeSkills : list string) (j : Job) :
  or_empty (requirements j) = [] ->
  calculateMatchScore resumeSkills j = Number_of_Z 0.
Proof. unfold calculateMatchScore. intros ->. reflexivity. Qed.

Lemma C1_no_requirements_witness :
  or_empty (requirements scenario2_job) = [] /\
  calculateMatchScore (extractSkills "Docker") scenario2_job = Number_of_Z 0.
Proof.
  split; [reflexivity | ].
  apply (C1_no_requirements_scores_zero (extractSkills "Docker") scenario2_job).
  reflexivity.
Defined.

(** C1, as stated, fails on Scenario 2: the resume skill ["Docker"] matches
    the nice-to-have skill of the job, and the score is not 20. *)
Lemma C1_scenario2_not_20 :
  someMatch (extractSkills "Docker") "Docker" = true /\
  calculateMatchScore (extractSkills "Docker") scenario2_job <> Number_of_Z 20.
Proof. split; [vm_compute; reflexivity | vm_compute; discriminate]. Qed.

(** C2, at the failing input: the resume skill ["Docker"] matches the
    nice-to-have skill of [bonus_job] and is counted in the score (20), yet
    [matchedSkills], which [analyzeResume] computes from [job.requirements]
    alone, does not list it. *)
Theorem C2_matched_nice_to_have_not_listed :
  someMatch ["Docker"] "Docker" = true /\
  calculateMatchScore ["Docker"] bonus_job = Number_of_Z 20 /\
  exists r, matchJob ["Docker"] bonus_job = Returned r /\ matchedSkills r = [].
Proof.
  split; [reflexivity | ]. split; [vm_compute; reflexivity | ].
  eexists. split; [vm_compute; reflexivity | reflexivity].
Qed.

(** C3, at the failing input: [calculateMatchScore] reads a missing
    [requirements] as an empty list, but [analyzeResume] passes it unguarded
    to [getMatchedSkills], and the run over the whole catalog ends in a
    [TypeError]; a missing [nice_to_have] alone does no harm. *)
Theorem C3_absent_requirements_abort_the_run :
  calculateMatchScore (extractSkills "Python") malformed_job = Number_of_Z 0 /\
  analyzeResume [malformed_job; plain_job] "Python" = Thrown TypeError /\
  exists out, analyzeResume [plain_job] "Python" = Returned out /\ List.length out = 1%nat.
Proof.
  split; [vm_compute; reflexivity | ]. split; [vm_compute; reflexivity | ].
  eexists. split; [vm_compute; reflexivity | reflexivity].
Qed.

(** C4: for every resume skill set and every catalog of jobs with their
    required skills present, [analyzeResume] returns the results sorted by
    score, highest first, and the results of any one score stand in the
    order of the catalog. *)
Theorem C4_ranking_sorted_and_stable (jobData : list Job) (resumeSkills : list string) :
  Forall has_requirements jobData -> Forall arrays_ok jobData ->
  exists out,
    analyzeSkills jobData resumeSkills = Returned out /\
    StronglySorted ranked_above out /\
    Permutation (map (resultOf resumeSkills) jobData) out /\
    forall r, In r out ->
      filter (fun r' => SFeqb (matchScore r') (matchScore r)) out
      = filter (fun r' => SFeqb (matchScore r') (matchScore r))
               (map (resultOf resumeSkills) jobData).
Proof.
  intros Hreq Harr.
  pose proof (resultOf_integer_scores resumeSkills jobData Harr) as Hint.
  eexists. split; [apply analyzeSkills_present, Hreq | ].
  split; [apply ranking_sorted, Hint | ].
  split; [apply Array_sort_perm | ].
  intros r Hin. apply ranking_stable; [exact Hint | ].
  apply (Permutation_in _ (Permutation_sym (Array_sort_perm _ _ _))) in Hin.
  rewrite Forall_forall in Hint. apply Hint, Hin.
Qed.

Lemma C4_ranking_witness :
  (Forall has_requirements [scenario1_job; plain_job; bonus_job] /\
   Forall arrays_ok [scenario1_job; plain_job; bonus_job]) /\
  exists out,
    analyzeSkills [scenario1_job; plain_job; bonus_job] ["Python"] = Returned out /\
    StronglySorted ranked_above out /\
    Permutation (map (resultOf ["Python"]) [scenario1_job; plain_job; bonus_job]) out /\
    forall r, In r out ->
      filter (fun r' => SFeqb (matchScore r') (matchScore r)) out
      = filter (fun r' => SFeqb (matchScore r') (matchScore r))
               (map (resultOf ["Python"]) [scenario1_job; plain_job; bonus_job]).
Proof.
  assert (H1 : Forall has_requirements [scenario1_job; plain_job; bonus_job])
    by (repeat constructor; discriminate).
  assert (H2 : Forall arrays_ok [scenario1_job; plain_job; bonus_job])
    by (repeat constructor; vm_compute; reflexivity).
  split; [split; assumption | ].
  exact (C4_ranking_sorted_and_stable [scenario1_job; plain_job; bonus_job] ["Python"] H1 H2).
Defined.

(** C5: for every resume skill set and every job with at least one required
    skill, the score is
    [round((countMatchedRequired / countRequired) * 80
           + (countMatchedNice / max(countNice, 1)) * 20)];
    and Scenario 1 gives matched skills Python and React, missing skill AWS
    and score 53. *)
Theorem C5_score_formula :
  (forall (resumeSkills : list string) (j : Job),
     or_empty (requirements j) <> [] ->
     array_length_ok (or_empty (nice_to_have j)) ->
     calculateMatchScore resumeSkills j
     = spec_total_score
         (List.length (filter (someMatch resumeSkills) (or_empty (requirements j))))
         (List.length (or_empty (requirements j)))
         (List.length (filter (someMatch resumeSkills) (or_empty (nice_to_have j))))
         (List.length (or_empty (nice_to_have j)))) /\
  matchJob (extractSkills "I use Python and React daily") scenario1_job
  = Returned {| job := scenario1_job;
                matchScore := Number_of_Z 53;
                matchedSkills := ["Python"; "React"];
                missingSkills := ["AWS"] |}.
Proof.
  split.
  - intros resumeSkills j Hreq Hnice. unfold calculateMatchScore, spec_total_score.
    destruct (or_empty (requirements j)) as [ | s reqs] eqn:E; [congruence | ].
    cbn [List.length Nat.eqb]. unfold array_length_ok in Hnice.
    rewrite Math_max_length by lia. reflexivity.
  - vm_compute. reflexivity.
Qed.

Lemma C5_score_formula_witness :
  (or_empty (requirements bonus_job) <> [] /\
   array_length_ok (or_empty (nice_to_have bonus_job))) /\
  calculateMatchScore ["Python"; "Docker"] bonus_job = spec_total_score 1 1 1 1.
Proof.
  assert (H1 : or_empty (requirements bonus_job) <> []) by discriminate.
  assert (H2 : array_length_ok (or_empty (nice_to_have bonus_job)))
    by (vm_compute; reflexivity).
  split; [split; assumption | ].
  exact (proj1 C5_score_formula ["Python"; "Docker"] bonus_job H1 H2).
Defined.

Lemma someMatch_spec (resumeSkills : list string) (skill : string) :
  someMatch resumeSkills skill = true <-> matches_resume resumeSkills skill.
Proof.
  unfold someMatch, matches_resume, symmetric_containment. rewrite existsb_exists.
  split; intros (x & Hin & H); exists x; (split; [exact Hin | ]).
  - apply skillMatches_spec in H. tauto.
  - apply skillMatches_spec. tauto.
Qed.

Lemma someMatch_decided (resumeSkills : list string) (test : string -> bool) :
  (forall skill, test skill = true <-> matches_resume resumeSkills skill) ->
  forall skill, someMatch resumeSkills skill = test skill.
Proof.
  intros H skill. specialize (H skill). rewrite <- someMatch_spec in H.
  destruct (someMatch resumeSkills skill), (test skill); try reflexivity.
  - symmetry. apply H. reflexivity.
  - apply H. reflexivity.
Qed.

(** C6: two skills match exactly when the lower-case form of one is a
    substring of the lower-case form of the other; so when skill [A] is a
    case-insensitive substring of skill [B], a resume with [A] matches a
    requirement [B] and a resume with [B] matches a requirement [A].  The
    test decides, and nothing else does, which skill the [some] of the
    matcher accepts, which required skills [getMatchedSkills] returns and
    which [getMissingSkills] returns, and which skills
    [calculateMatchScore] counts: a job that requires [B] alone, with no
    optional skill, scores 80 for a resume with [A], and a job that
    requires [A] alone scores 80 for a resume with [B]. *)
Theorem C6_symmetric_containment (A B : string) (resumeSkills reqs : list string) :
  (skillMatches A B = true <->
   substring_of (toLowerCase A) (toLowerCase B) \/
   substring_of (toLowerCase B) (toLowerCase A)) /\
  skillMatches A B = skillMatches B A /\
  (substring_of (toLowerCase A) (toLowerCase B) ->
   (In A resumeSkills -> In B reqs ->
      someMatch resumeSkills B = true /\
      exists matched, getMatchedSkills resumeSkills (Some reqs) = Returned matched /\
                      In B matched) /\
   (In B resumeSkills -> In A reqs ->
      someMatch resumeSkills A = true /\
      exists matched, getMatchedSkills resumeSkills (Some reqs) = Returned matched /\
                      In A matched)) /\
  (someMatch resumeSkills B = true <-> matches_resume resumeSkills B) /\
  (exists matched missing,
     getMatchedSkills resumeSkills (Some reqs) = Returned matched /\
     getMissingSkills resumeSkills (Some reqs) = Returned missing /\
     subsequence matched reqs /\ subsequence missing reqs /\
     (forall skill, In skill matched <->
                    In skill reqs /\ matches_resume resumeSkills skill) /\
     (forall skill, In skill missing <->
                    In skill reqs /\ ~ matches_resume resumeSkills skill)) /\
  (forall (j : Job) (test : string -> bool),
     (forall skill, test skill = true <-> matches_resume resumeSkills skill) ->
     calculateMatchScore resumeSkills j = score_by_test test j) /\
  (substring_of (toLowerCase A) (toLowerCase B) ->
   forall j : Job, or_empty (nice_to_have j) = [] ->
     (In A resumeSkills -> or_empty (requirements j) = [B] ->
        calculateMatchScore resumeSkills j = Number_of_Z 80) /\
     (In B resumeSkills -> or_empty (requirements j) = [A] ->
        calculateMatchScore resumeSkills j = Number_of_Z 80)).
Proof.
  split; [rewrite skillMatches_spec; tauto | ].
  split; [apply skillMatches_sym | ].
  split; [ | split; [apply someMatch_spec | split; [ | split]]].
  - intros Hsub.
    assert (HAB : skillMatches A B = true) by (apply skillMatches_spec; right; exact Hsub).
    assert (HBA : skillMatches B A = true) by (rewrite skillMatches_sym; exact HAB).
    split; intros Hres Hreq.
    + pose proof (someMatch_In _ _ _ Hres HAB) as Hm. split; [exact Hm | ].
      eexists. split; [reflexivity | ]. apply filter_In. auto.
    + pose proof (someMatch_In _ _ _ Hres HBA) as Hm. split; [exact Hm | ].
      eexists. split; [reflexivity | ]. apply filter_In. auto.
  - eexists. eexists. split; [reflexivity | ]. split; [reflexivity | ].
    split; [apply filter_subsequence | ]. split; [apply filter_subsequence | ].
    split; intros skill; rewrite filter_In, <- someMatch_spec.
    + reflexivity.
    + rewrite negb_true_iff. destruct (someMatch resumeSkills skill).
      * split; [intros [_ H]; discriminate H | intros [_ H]; exfalso; apply H; reflexivity].
      * split; [intros [H _]; split; [exact H | discriminate] | intros [H _]; auto].
  - intros j test Htest. unfold calculateMatchScore, score_by_test.
    rewrite (filter_ext _ _ (someMatch_decided resumeSkills test Htest)
                        (or_empty (requirements j))).
    rewrite (filter_ext _ _ (someMatch_decided resumeSkills test Htest)
                        (or_empty (nice_to_have j))).
    destruct (or_empty (requirements j)) as [ | s rest]; reflexivity.
  - intros Hsub j Hnice.
    assert (HAB : skillMatches A B = true) by (apply skillMatches_spec; right; exact Hsub).
    assert (HBA : skillMatches B A = true) by (rewrite skillMatches_sym; exact HAB).
    split; intros Hres Hreq; unfold calculateMatchScore; rewrite Hreq, Hnice; simpl.
    + rewrite (someMatch_In _ _ _ Hres HAB). vm_compute. reflexivity.
    + rewrite (someMatch_In _ _ _ Hres HBA). vm_compute. reflexivity.
Qed.

Lemma C6_symmetric_containment_witness :
  substring_of (toLowerCase "Node") (toLowerCase "Node.js") /\
  someMatch ["Node"] "Node.js" = true /\
  someMatch ["Node.js"] "Node" = true /\
  calculateMatchScore ["Node"] nodejs_job = Number_of_Z 80 /\
  calculateMatchScore ["Node.js"] node_job = Number_of_Z 80 /\
  calculateMatchScore ["Java"] node_job = Number_of_Z 0.
Proof.
  assert (H : substring_of (toLowerCase "Node") (toLowerCase "Node.js")).
  { exists "", ".js". reflexivity. }
  split; [exact H | ]. split; [ | split; [ | split; [ | split]]].
  - destruct (C6_symmetric_containment "Node" "Node.js" ["Node"] ["Node.js"])
      as (_ & _ & Hc & _).
    destruct (Hc H) as [Hl _]. apply Hl; left; reflexivity.
  - destruct (C6_symmetric_containment "Node" "Node.js" ["Node.js"] ["Node"])
      as (_ & _ & Hc & _).
    destruct (Hc H) as [_ Hr]. apply Hr; left; reflexivity.
  - destruct (C6_symmetric_containment "Node" "Node.js" ["Node"] ["Node.js"])
      as (_ & _ & _ & _ & _ & Hs & _).
    rewrite (Hs nodejs_job (someMatch ["Node"]) (someMatch_spec ["Node"])).
    vm_compute. reflexivity.
  - destruct (C6_symmetric_containment "Node" "Node.js" ["Node.js"] ["Node"])
      as (_ & _ & _ & _ & _ & Hs & _).
    rewrite (Hs node_job (someMatch ["Node.js"]) (someMatch_spec ["Node.js"])).
    vm_compute. reflexivity.
  - destruct (C6_symmetric_containment "Node" "Node.js" ["Java"] ["Node"])
      as (_ & _ & _ & _ & _ & Hs & _).
    rewrite (Hs node_job (someMatch ["Java"]) (someMatch_spec ["Java"])).
    vm_compute. reflexivity.
Defined.

(** C7: for every resume skill set and every job, with its skill lists
    present, empty or missing, the score is an integer from 0 to 100. *)
Theorem C7_score_between_0_and_100 (resumeSkills : list string) (j : Job) :
  arrays_ok j ->
  exists z, (0 <= z <= 100)%Z /\ calculateMatchScore resumeSkills j = Number_of_Z z.
Proof. intros [Hreq Hnice]. apply calculateMatchScore_integer; assumption. Qed.

Lemma C7_score_witness :
  arrays_ok scenario1_job /\
  exists z, (0 <= z <= 100)%Z /\
            calculateMatchScore ["Python"; "React"; "AI"] scenario1_job = Number_of_Z z.
Proof.
  assert (H : arrays_ok scenario1_job) by (split; vm_compute; reflexivity).
  split; [exact H | ].
  exact (C7_score_between_0_and_100 ["Python"; "React"; "AI"] scenario1_job H).
Defined.

(** C8: the empty resume has no skills, and against any catalog of jobs with
    their required skills present it gives, job by job and in the order of
    the catalog, score 0, no matched skill, and every required skill
    missing. *)
Theorem C8_empty_resume (jobData : list Job) :
  Forall has_requirements jobData -> Forall arrays_ok jobData ->
  extractSkills "" = [] /\
  analyzeResume jobData ""
  = Returned (map (fun j => {| job := j;
                               matchScore := Number_of_Z 0;
                               matchedSkills := [];
                               missingSkills := or_empty (requirements j) |})
                  jobData).
Proof.
  intros Hreq Harr. split; [reflexivity | ].
  unfold analyzeResume. change (extractSkills "") with (@nil string).
  rewrite (analyzeSkills_present _ _ Hreq).
  assert (Hmap : map (resultOf []) jobData
                 = map (fun j => {| job := j;
                                    matchScore := Number_of_Z 0;
                                    matchedSkills := [];
                                    missingSkills := or_empty (requirements j) |})
                       jobData).
  { apply map_ext_in. intros j Hin. rewrite Forall_forall in Harr.
    unfold resultOf.
    rewrite (calculateMatchScore_no_skills j (Harr j Hin)).
    rewrite filter_someMatch_nil, filter_not_someMatch_nil. reflexivity. }
  rewrite Hmap, Array_sort_all_zero; [reflexivity | ].
  rewrite Forall_map. apply Forall_forall. intros j _. reflexivity.
Qed.

Lemma C8_empty_resume_witness :
  (Forall has_requirements [scenario1_job; scenario2_job] /\
   Forall arrays_ok [scenario1_job; scenario2_job]) /\
  analyzeResume [scenario1_job; scenario2_job] ""
  = Returned [ {| job := scenario1_job; matchScore := Number_of_Z 0;
                  matchedSkills := []; missingSkills := ["Python"; "React"; "AWS"] |};
               {| job := scenario2_job; matchScore := Number_of_Z 0;
                  matchedSkills := []; missingSkills := [] |} ].
Proof.
  assert (H1 : Forall has_requirements [scenario1_job; scenario2_job])
    by (repeat constructor; discriminate).
  assert (H2 : Forall arrays_ok [scenario1_job; scenario2_job])
    by (repeat constructor; vm_compute; reflexivity).
  split; [split; assumption | ].
  exact (proj2 (C8_empty_resume [scenario1_job; scenario2_job] H1 H2)).
Defined.

(** C9: for a job with its required skills present, every required skill is
    in exactly one of [matchedSkills] and [missingSkills], and each of the
    two lists keeps the order of the required skills. *)
Theorem C9_matched_missing_partition
    (resumeSkills : list string) (j : Job) (reqs : list string) :
  requirements j = Some reqs ->
  exists r, matchJob resumeSkills j = Returned r /\
    (forall skill, In skill (matchedSkills r) -> ~ In skill (missingSkills r)) /\
    (forall skill, In skill reqs <->
                   In skill (matchedSkills r) \/ In skill (missingSkills r)) /\
    (List.length (matchedSkills r) + List.length (missingSkills r)
     = List.length reqs)%nat /\
    Permutation (matchedSkills r ++ missingSkills r) reqs /\
    subsequence (matchedSkills r) reqs /\
    subsequence (missingSkills r) reqs.
Proof.
  intros Hreq. exists (resultOf resumeSkills j).
  split; [apply matchJob_present; unfold has_requirements; congruence | ].
  unfold resultOf. cbn [matchedSkills missingSkills]. rewrite Hreq. cbn [or_empty].
  split; [ | split; [ | split; [ | split; [ | split]]]].
  - intros skill Hm Hn. apply filter_In in Hm, Hn.
    destruct Hm as [_ Hm], Hn as [_ Hn]. rewrite Hm in Hn. discriminate.
  - intros skill. split.
    + intros Hin. destruct (someMatch resumeSkills skill) eqn:E.
      * left. apply filter_In. auto.
      * right. apply filter_In. rewrite E. auto.
    + intros [H | H]; apply filter_In in H; apply H.
  - apply filter_partition_length.
  - apply filter_partition_perm.
  - apply filter_subsequence.
  - apply filter_subsequence.
Qed.

Lemma C9_partition_witness :
  requirements scenario1_job = Some ["Python"; "React"; "AWS"] /\
  exists r, matchJob ["Python"; "React"; "AI"] scenario1_job = Returned r /\
    Permutation (matchedSkills r ++ missingSkills r) ["Python"; "React"; "AWS"].
Proof.
  split; [reflexivity | ].
  destruct (C9_matched_missing_partition ["Python"; "React"; "AI"] scenario1_job
              ["Python"; "React"; "AWS"] eq_refl) as (r & Hr & _ & _ & _ & Hp & _).
  exists r. split; [exact Hr | exact Hp].
Defined.

(** C10: a run of [analyzeResume] that returns gives exactly one result per
    job of the catalog, each the job itself with its score, matched skills
    and missing skills added; and the run returns whenever every job has its
    required skills present. *)
Theorem C10_one_result_per_job (jobData : list Job) (resumeSkills : list string) :
  (Forall has_requirements jobData ->
   exists out, analyzeSkills jobData resumeSkills = Returned out) /\
  (forall out, analyzeSkills jobData resumeSkills = Returned out ->
     List.length out = List.length jobData /\
     Permutation (map job out) jobData /\
     Forall (fun r => r = resultOf resumeSkills (job r)) out).
Proof.
  split.
  - intros H. eexists. apply analyzeSkills_present, H.
  - intros out Hout. apply analyzeSkills_returned in Hout. destruct Hout as [_ ->].
    pose proof (Array_sort_perm _ byScoreDescending (map (resultOf resumeSkills) jobData))
      as Hperm.
    split; [ | split].
    + rewrite <- (Permutation_length Hperm). apply length_map.
    + rewrite <- Hperm, map_map. cbn [resultOf job]. rewrite map_id. reflexivity.
    + apply (Permutation_Forall Hperm). rewrite Forall_map.
      apply Forall_forall. intros j _. reflexivity.
Qed.

Lemma C10_one_result_witness :
  Forall has_requirements [plain_job; bonus_job] /\
  exists out, analyzeSkills [plain_job; bonus_job] ["Docker"] = Returned out /\
              Permutation (map job out) [plain_job; bonus_job].
Proof.
  assert (H : Forall has_requirements [plain_job; bonus_job])
    by (repeat constructor; discriminate).
  split; [exact H | ].
  destruct (C10_one_result_per_job [plain_job; bonus_job] ["Docker"]) as [Hret Hall].
  destruct (Hret H) as [out Hout]. exists out. split; [exact Hout | ].
  apply (Hall out Hout).
Defined.

(* ===================================================================== *)
(** * More of the code: the skill extractor *)

Lemma nodupb_sound (l : list string) : nodupb l = true -> NoDup l.
Proof.
  induction l as [ | x rest IH]; cbn [nodupb]; [constructor | ].
  rewrite andb_true_iff, negb_true_iff. intros [Hx Hrest].
  constructor; [ | apply IH, Hrest].
  intros Hin. assert (H : existsb (String.eqb x) rest = true).
  { apply existsb_exists. exists x. split; [exact Hin | apply String.eqb_refl]. }
  congruence.
Qed.

Lemma NoDup_commonSkills : NoDup commonSkills.
Proof. apply nodupb_sound. vm_compute. reflexivity. Qed.

Lemma includes_refl (s : string) : includes s s = true.
Proof.
  apply includes_spec. exists EmptyString, EmptyString. cbn [String.append].
  induction s as [ | c s IH]; [reflexivity | cbn [String.append]; congruence].
Qed.

Lemma skillMatches_refl (s : string) : skillMatches s s = true.
Proof. unfold skillMatches. rewrite includes_refl. reflexivity. Qed.















Lemma trimStart_empty (s : string) :
  trimStart s = EmptyString <-> allWhiteSpace s = true.
Proof.
  induction s as [ | c r IH]; cbn [trimStart allWhiteSpace]; [tauto | ].
  destruct (isWhiteSpace c); cbn [andb]; [exact IH | ].
  split; discriminate.
Qed.




(* ===================================================================== *)
(** * More of the code: the score at its ends *)

(** A Number divided by itself is 1. *)
Lemma Number_div_self (r : nat) :
  (1 <= r)%nat -> (Z.of_nat r < 2 ^ 53)%Z ->
  Number_div (Number_of_nat r) (Number_of_nat r) = Number_of_Z 1.
Proof.
  intros Hr Hb. unfold Number_of_nat.
  destruct (Number_of_Z_exact (Z.of_nat r) ltac:(lia)) as (m & e & -> & _).
  pose proof (SFdiv_core_binary_spec m m e e) as H. cbv zeta in H.
  rewrite !Z.sub_diag in H.
  change (Z.min (fexp prec emax 0) 0) with (-53)%Z in H.
  change (0 - -53)%Z with 53%Z in H.
  change (2 ^ 53)%Z with 9007199254740992%Z in H.
  destruct H as (q & r0 & Hcore & Heq & Hr0 & Hq).
  assert (Hq' : q = 9007199254740992%Z) by nia.
  assert (Hr' : r0 = 0%Z) by nia.
  subst q r0. unfold Number_div. cbn [SFdiv]. rewrite Hcore. cbn [xorb].
  assert (Hloc : new_location (Zpos m) 0 = loc_Exact).
  { unfold new_location, new_location_even, new_location_odd.
    destruct (Z.even (Zpos m)); reflexivity. }
  rewrite Hloc. vm_compute. reflexivity.
Qed.

Lemma filter_all {A : Type} (f : A -> bool) (l : list A) :
  (forall a, In a l -> f a = true) -> filter f l = l.
Proof. intros H. apply forallb_filter_id, forallb_forall, H. Qed.

Lemma Number_add_zero_r (B : Q) (x : Number) :
  nonneg_le B x -> Number_add x (S754_zero false) = x.
Proof.
  destruct x as [[ | ] | [ | ] | | [ | ] m e]; cbn [nonneg_le]; try contradiction; reflexivity.
Qed.

(** X6: a job that lists no nice-to-have skill, or has no such field, never
    scores above 80. *)
Theorem X6_no_nice_to_have_caps_at_80 (resumeSkills : list string) (j : Job) :
  array_length_ok (or_empty (requirements j)) ->
  or_empty (nice_to_have j) = [] ->
  exists z, (0 <= z <= 80)%Z /\ calculateMatchScore resumeSkills j = Number_of_Z z.
Proof.
  unfold array_length_ok, calculateMatchScore. intros Hreq Hnice. rewrite Hnice.
  destruct (Nat.eqb_spec (List.length (or_empty (requirements j))) 0) as [E | NE].
  - exists 0%Z. split; [lia | reflexivity].
  - cbn [filter List.length].
    change (Number_mul (Number_div (Number_of_nat 0)
                          (Math_max (Number_of_nat 0) (Number_of_Z 1))) (Number_of_Z 20))
      with (S754_zero false).
    assert (Hx : nonneg_le (F2Q 5629499534213120 (-46))
                   (Number_mul
                      (Number_div
                         (Number_of_nat
                            (List.length (filter (someMatch resumeSkills)
                                            (or_empty (requirements j)))))
                         (Number_of_nat (List.length (or_empty (requirements j)))))
                      (Number_of_Z 80))).
    { rewrite Number_of_Z_80.
      apply (Number_mul_le _ _ 1); [exact canonical_80 | unfold emax, prec; lia | lia | | ].
      - rewrite Qmult_1_l. apply Qle_refl.
      - apply ratio_le_one; [apply filter_length_le | lia | lia]. }
    rewrite (Number_add_zero_r _ _ Hx).
    apply Math_round_le; [lia | ].
    apply (nonneg_le_weaken _ _ _ (Qle_refl _)) in Hx.
    revert Hx. apply nonneg_le_weaken. rewrite F2Q_80_value. apply Qle_refl.
Qed.

(** X5: a resume that matches every required and every nice-to-have skill
    of a job scores 100 when the job lists a nice-to-have skill, and 80
    when it lists none. *)
Theorem X5_full_match_score (resumeSkills : list string) (j : Job) :
  arrays_ok j -> or_empty (requirements j) <> [] ->
  (forall s, In s (or_empty (requirements j)) -> someMatch resumeSkills s = true) ->
  (forall s, In s (or_empty (nice_to_have j)) -> someMatch resumeSkills s = true) ->
  calculateMatchScore resumeSkills j
  = match or_empty (nice_to_have j) with
    | [] => Number_of_Z 80
    | _ :: _ => Number_of_Z 100
    end.
Proof.
  unfold arrays_ok, array_length_ok, calculateMatchScore. intros [Hreq Hnice] Hne Hr Hn.
  destruct (Nat.eqb_spec (List.length (or_empty (requirements j))) 0) as [E | NE].
  { destruct (or_empty (requirements j)); [congruence | discriminate]. }
  rewrite (filter_all _ _ Hr), (filter_all _ _ Hn).
  rewrite Math_max_length by lia. rewrite Number_div_self by lia.
  destruct (or_empty (nice_to_have j)) as [ | s nice] eqn:En.
  - vm_compute. reflexivity.
  - replace (Nat.max (List.length (s :: nice)) 1) with (List.length (s :: nice))
      by (cbn [List.length]; lia).
    rewrite Number_div_self by (cbn [List.length] in *; lia).
    vm_compute. reflexivity.
Qed.

(* ===================================================================== *)
(** * More of the code: tiers *)

Lemma tier_tests_checked :
  forallb (fun z =>
      Bool.eqb (Number_ge (Number_of_Z z) (Number_of_Z 80)) (80 <=? z)%Z
      && Bool.eqb (Number_ge (Number_of_Z z) (Number_of_Z 60)) (60 <=? z)%Z
      && Bool.eqb (Number_lt (Number_of_Z z) (Number_of_Z 80)) (z <? 80)%Z
      && Bool.eqb (Number_lt (Number_of_Z z) (Number_of_Z 60)) (z <? 60)%Z)
    score_range = true.
Proof. vm_compute. reflexivity. Qed.

Lemma tier_tests (z : Z) :
  (0 <= z <= 100)%Z ->
  Number_ge (Number_of_Z z) (Number_of_Z 80) = (80 <=? z)%Z /\
  Number_ge (Number_of_Z z) (Number_of_Z 60) = (60 <=? z)%Z /\
  Number_lt (Number_of_Z z) (Number_of_Z 80) = (z <? 80)%Z /\
  Number_lt (Number_of_Z z) (Number_of_Z 60) = (z <? 60)%Z.
Proof.
  intros Hz. pose proof tier_tests_checked as H.
  rewrite forallb_forall in H. specialize (H z (In_score_range z Hz)).
  rewrite !andb_true_iff in H. destruct H as [[[H1 H2] H3] H4].
  apply eqb_prop in H1, H2, H3, H4. auto.
Qed.

(** An integer score passes exactly one of the three tests of
    [updateFilterCounts] and [applyFilter], the one of its tier. *)
Lemma tier_cases (x : Number) :
  integer_score x ->
  (Number_ge x (Number_of_Z 80) = true /\
   Number_ge x (Number_of_Z 60) && Number_lt x (Number_of_Z 80) = false /\
   Number_lt x (Number_of_Z 60) = false /\ getMatchLevel x = "high") \/
  (Number_ge x (Number_of_Z 80) = false /\
   Number_ge x (Number_of_Z 60) && Number_lt x (Number_of_Z 80) = true /\
   Number_lt x (Number_of_Z 60) = false /\ getMatchLevel x = "medium") \/
  (Number_ge x (Number_of_Z 80) = false /\
   Number_ge x (Number_of_Z 60) && Number_lt x (Number_of_Z 80) = false /\
   Number_lt x (Number_of_Z 60) = true /\ getMatchLevel x = "low").
Proof.
  intros (z & Hz & ->). unfold getMatchLevel.
  destruct (tier_tests z Hz) as (-> & -> & -> & ->).
  destruct (Z.leb_spec 80 z), (Z.leb_spec 60 z), (Z.ltb_spec z 80), (Z.ltb_spec z 60);
    try lia; cbn [andb]; auto 10.
Qed.

Lemma filterCounts_partition (matches : list MatchResult) :
  Forall (fun r => integer_score (matchScore r)) matches ->
  (high (filterCounts matches) + medium (filterCounts matches) + low (filterCounts matches)
   = List.length matches)%nat /\
  high (filterCounts matches)
  = List.length (filter (fun r => String.eqb (getMatchLevel (matchScore r)) "high") matches) /\
  medium (filterCounts matches)
  = List.length (filter (fun r => String.eqb (getMatchLevel (matchScore r)) "medium") matches) /\
  low (filterCounts matches)
  = List.length (filter (fun r => String.eqb (getMatchLevel (matchScore r)) "low") matches).
Proof.
  unfold filterCounts. cbn [high medium low].
  induction 1 as [ | r rest Hr Hrest IH]; [cbn; auto | ].
  cbn [filter]. destruct IH as (IH0 & IH1 & IH2 & IH3).
  destruct (tier_cases _ Hr) as [(-> & -> & -> & ->) | [(-> & -> & -> & ->) | (-> & -> & -> & ->)]];
    cbn [String.eqb Ascii.eqb Bool.eqb andb List.length]; repeat split; lia.
Qed.

(* ===================================================================== *)
(** * More of the code: the job card *)

Lemma Array_includes_filter (f : string -> bool) (l : list string) (x : string) :
  Array_includes (filter f l) x = existsb (String.eqb x) l && f x.
Proof.
  unfold Array_includes. induction l as [ | a l IH]; [reflexivity | ].
  cbn [filter existsb]. destruct (String.eqb_spec x a) as [-> | Hne]; cbn [orb].
  - destruct (f a) eqn:Fa; cbn [existsb].
    + rewrite String.eqb_refl. reflexivity.
    + rewrite IH, ?Fa, ?andb_false_r. reflexivity.
  - destruct (f a); cbn [existsb]; [ | exact IH].
    apply String.eqb_neq in Hne. rewrite Hne. exact IH.
Qed.

Lemma existsb_eqb_In (l : list string) (x : string) :
  existsb (String.eqb x) l = true <-> In x l.
Proof.
  rewrite existsb_exists. split.
  - intros (y & Hin & Heq). apply String.eqb_eq in Heq. subst. exact Hin.
  - intros Hin. exists x. split; [exact Hin | apply String.eqb_refl].
Qed.

(* ===================================================================== *)
(** * More of the code: rendering and filtering *)

Section PageFacts.

Variable toString_other : Number -> string.

Lemma createJobCard_present (m : MatchResult) :
  has_requirements (job m) ->
  createJobCard toString_other m = Returned (cardOf toString_other m).
Proof.
  unfold has_requirements, createJobCard, cardOf.
  destruct (requirements (job m)) as [reqs | ]; [intros _ | congruence].
  cbn [or_empty]. f_equal. f_equal.
  - destruct (nice_to_have (job m)) as [[ | s nice] | ]; reflexivity.
  - destruct (source_url (job m)) as [[ | c u] | ]; reflexivity.
Qed.

Lemma createJobCard_absent (m : MatchResult) :
  requirements (job m) = None -> createJobCard toString_other m = Thrown TypeError.
Proof. unfold createJobCard. intros ->. reflexivity. Qed.

Lemma setResults_same (p : Page) :
  setResults (resultsSection_hidden p) (resultsGrid p) p = p.
Proof. destruct p. reflexivity. Qed.

Lemma appendCards_present (matches : list MatchResult) :
  Forall (fun m => has_requirements (job m)) matches ->
  forall p,
    appendCards toString_other matches p
    = (setResults (resultsSection_hidden p)
                  (resultsGrid p ++ map (cardOf toString_other) matches) p, None).
Proof.
  induction 1 as [ | m rest Hm Hrest IH]; intros p; cbn [appendCards map].
  - rewrite app_nil_r, setResults_same. reflexivity.
  - rewrite (createJobCard_present m Hm), IH. destruct p.
    cbn [setResults resultsSection_hidden resultsGrid]. rewrite <- app_assoc. reflexivity.
Qed.

Lemma displayResults_present (matches : list MatchResult) (p : Page) :
  Forall (fun m => has_requirements (job m)) matches ->
  displayResults toString_other matches p
  = (updateFilterCounts toString_other matches
       (setResults false (map (cardOf toString_other) matches) p), None).
Proof.
  intros H. unfold displayResults. rewrite (appendCards_present matches H).
  destruct p. reflexivity.
Qed.

(** What is written to [dataset.matchScore] reads back, through [parseInt],
    as the score. *)
Lemma score_string_round_trip :
  Forall (fun z => parseInt (Number_toString toString_other (Number_of_Z z)) = Number_of_Z z)
         score_range.
Proof.
  unfold score_range. cbn [seq map].
  repeat (constructor; [vm_compute; reflexivity | ]). constructor.
Qed.

Lemma parseInt_card_matchScore (m : MatchResult) :
  integer_score (matchScore m) ->
  parseInt (card_matchScore (cardOf toString_other m)) = matchScore m.
Proof.
  intros (z & Hz & Hm). cbn [cardOf card_matchScore]. rewrite Hm.
  pose proof score_string_round_trip as H. rewrite Forall_forall in H.
  apply H, In_score_range, Hz.
Qed.

Lemma visibleCards_applyFilter (name : string) (p : Page) :
  List.length (visibleCards (applyFilter name p))
  = List.length (filter (fun card => filterShows name (parseInt (card_matchScore card)))
                        (resultsGrid p)).
Proof.
  unfold visibleCards, applyFilter. cbn [resultsGrid].
  induction (resultsGrid p) as [ | card rest IH]; [reflexivity | ].
  cbn [map filter card_display card_matchScore].
  destruct (filterShows name (parseInt (card_matchScore card)));
    cbn [String.eqb Ascii.eqb Bool.eqb andb List.length]; rewrite IH; reflexivity.
Qed.

Lemma filter_cards_of_matches (name : string) (matches : list MatchResult) :
  Forall (fun r => integer_score (matchScore r)) matches ->
  List.length (filter (fun card => filterShows name (parseInt (card_matchScore card)))
                      (map (cardOf toString_other) matches))
  = List.length (filter (fun r => filterShows name (matchScore r)) matches).
Proof.
  induction 1 as [ | m rest Hm Hrest IH]; [reflexivity | ].
  cbn [map filter]. rewrite (parseInt_card_matchScore m Hm).
  destruct (filterShows name (matchScore m)); cbn [List.length]; rewrite IH; reflexivity.
Qed.

Lemma resultsGrid_updateFilterCounts (matches : list MatchResult) (p : Page) :
  resultsGrid (updateFilterCounts toString_other matches p) = resultsGrid p.
Proof. reflexivity. Qed.

(** The text before the first parenthesis of a rewritten button label. *)
Lemma beforeFirst_countLabel (text : string) (count : option nat) :
  beforeFirst "(" (countLabel toString_other text count)
  = (beforeFirst "(" text ++ " ")%string.
Proof.
  unfold countLabel.
  induction text as [ | c r IH]; [reflexivity | ].
  cbn [beforeFirst]. destruct (Ascii.eqb c "(") eqn:Ec.
  - reflexivity.
  - cbn [String.append beforeFirst]. rewrite Ec. f_equal. exact IH.
Qed.

End PageFacts.

Lemma run_results_wellformed (jobData : list Job) (resumeSkills : list string)
    (out : list MatchResult) :
  Forall arrays_ok jobData ->
  analyzeSkills jobData resumeSkills = Returned out ->
  List.length out = List.length jobData /\
  Forall (fun m => has_requirements (job m)) out /\
  Forall (fun m => integer_score (matchScore m)) out.
Proof.
  intros Harr Hout. apply analyzeSkills_returned in Hout. destruct Hout as [Hreq ->].
  pose proof (Array_sort_perm _ byScoreDescending (map (resultOf resumeSkills) jobData))
    as Hperm.
  split; [ | split].
  - rewrite <- (Permutation_length Hperm). apply length_map.
  - apply (Permutation_Forall Hperm). rewrite Forall_map. exact Hreq.
  - apply (Permutation_Forall Hperm). apply resultOf_integer_scores, Harr.
Qed.

(* ===================================================================== *)
(** * More of the code: the properties *)

(** X1: a run of [analyzeResume] over a catalog returns exactly when every
    job has its [requirements], and otherwise throws a [TypeError]; the
    resume plays no part in which of the two happens. *)
Theorem X1_run_returns_or_throws (jobData : list Job) (resumeSkills : list string) :
  (Forall has_requirements jobData <->
   exists out, analyzeSkills jobData resumeSkills = Returned out) /\
  (Exists (fun j => requirements j = None) jobData <->
   analyzeSkills jobData resumeSkills = Thrown TypeError).
Proof.
  split; split.
  - intros H. eexists. apply analyzeSkills_present, H.
  - intros [out H]. apply analyzeSkills_returned in H. apply H.
  - apply analyzeSkills_absent.
  - intros H. apply Exists_exists.
    induction jobData as [ | j rest IH].
    + discriminate H.
    + destruct (requirements j) as [reqs | ] eqn:E.
      * assert (Hrest : analyzeSkills rest resumeSkills = Thrown TypeError).
        { destruct (analyzeSkills rest resumeSkills) as [out | []] eqn:Er; [ | reflexivity].
          apply analyzeSkills_returned in Er. destruct Er as [Hall _].
          assert (Hj : has_requirements j) by (unfold has_requirements; congruence).
          rewrite (analyzeSkills_present (j :: rest) resumeSkills (Forall_cons _ Hj Hall)) in H.
          discriminate H. }
        destruct (IH Hrest) as (j' & Hin & Hnone). exists j'. split; [right; exact Hin | exact Hnone].
      * exists j. split; [left; reflexivity | exact E].
Qed.

(** X2: [extractSkills] returns, without repeats and in the order of the
    vocabulary, exactly the vocabulary skills whose lower-case form occurs
    in the lower-cased text. *)
Theorem X2_extractSkills_vocabulary (text : string) :
  NoDup (extractSkills text) /\
  subsequence (extractSkills text) commonSkills /\
  forall skill,
    In skill (extractSkills text) <->
    In skill commonSkills /\ substring_of (toLowerCase skill) (toLowerCase text).
Proof.
  unfold extractSkills. split; [ | split].
  - apply NoDup_filter, NoDup_commonSkills.
  - apply filter_subsequence.
  - intros skill. rewrite filter_In, includes_spec. reflexivity.
Qed.




(** X4: a vocabulary skill that occurs in the resume, in whatever case, and
    is required by a job is listed among the matched skills of that job's
    result and not among the missing ones. *)
Theorem X4_found_required_skill_is_matched
    (jobData : list Job) (text : string) (out : list MatchResult)
    (r : MatchResult) (skill : string) :
  analyzeResume jobData text = Returned out -> In r out ->
  In skill commonSkills ->
  substring_of (toLowerCase skill) (toLowerCase text) ->
  In skill (or_empty (requirements (job r))) ->
  In skill (matchedSkills r) /\ ~ In skill (missingSkills r).
Proof.
  unfold analyzeResume. intros Hout Hr Hvoc Hsub Hreq.
  apply analyzeSkills_returned in Hout. destruct Hout as [_ ->].
  apply (Permutation_in _ (Permutation_sym (Array_sort_perm _ _ _))) in Hr.
  apply in_map_iff in Hr. destruct Hr as (j & <- & _).
  cbn [resultOf job matchedSkills missingSkills] in *.
  assert (Hfound : In skill (extractSkills text)).
  { apply filter_In. split; [exact Hvoc | apply includes_spec, Hsub]. }
  pose proof (someMatch_In _ _ _ Hfound (skillMatches_refl skill)) as Hm.
  split.
  - apply filter_In. auto.
  - intros Hmiss. apply filter_In in Hmiss. destruct Hmiss as [_ Hn].
    rewrite Hm in Hn. discriminate.
Qed.

Lemma X4_found_required_skill_witness :
  exists out r,
    analyzeResume [scenario1_job] "PYTHON developer" = Returned out /\ In r out /\
    In "Python" (matchedSkills r) /\ ~ In "Python" (missingSkills r).
Proof.
  eexists. eexists. split; [vm_compute; reflexivity | ]. split; [left; reflexivity | ].
  eapply (X4_found_required_skill_is_matched [scenario1_job] "PYTHON developer").
  - vm_compute. reflexivity.
  - left. reflexivity.
  - left. reflexivity.
  - exists "", " developer". reflexivity.
  - left. reflexivity.
Defined.

Lemma X5_full_match_witness :
  calculateMatchScore ["Python"; "Docker"] bonus_job = Number_of_Z 100.
Proof.
  apply (X5_full_match_score ["Python"; "Docker"] bonus_job).
  - split; vm_compute; reflexivity.
  - discriminate.
  - intros s [<- | []]. reflexivity.
  - intros s [<- | []]. reflexivity.
Defined.

Lemma X6_no_nice_to_have_witness :
  exists z, (0 <= z <= 80)%Z /\ calculateMatchScore ["Python"] plain_job = Number_of_Z z.
Proof.
  apply (X6_no_nice_to_have_caps_at_80 ["Python"] plain_job).
  - vm_compute. reflexivity.
  - reflexivity.
Defined.

(** X7: over the results of a run, the three counts of
    [updateFilterCounts] add up to the number of jobs, and each is the
    number of results that [getMatchLevel] puts in that tier. *)
Theorem X7_filter_counts_partition
    (jobData : list Job) (resumeSkills : list string) (out : list MatchResult) :
  Forall arrays_ok jobData ->
  analyzeSkills jobData resumeSkills = Returned out ->
  (high (filterCounts out) + medium (filterCounts out) + low (filterCounts out)
   = List.length jobData)%nat /\
  high (filterCounts out)
  = List.length (filter (fun r => String.eqb (getMatchLevel (matchScore r)) "high") out) /\
  medium (filterCounts out)
  = List.length (filter (fun r => String.eqb (getMatchLevel (matchScore r)) "medium") out) /\
  low (filterCounts out)
  = List.length (filter (fun r => String.eqb (getMatchLevel (matchScore r)) "low") out).
Proof.
  intros Harr Hout.
  destruct (run_results_wellformed _ _ _ Harr Hout) as (Hlen & _ & Hint).
  rewrite <- Hlen. apply filterCounts_partition, Hint.
Qed.

Lemma X7_filter_counts_witness :
  exists out,
    analyzeSkills [scenario1_job; plain_job; bonus_job] ["Python"] = Returned out /\
    (high (filterCounts out) + medium (filterCounts out) + low (filterCounts out) = 3)%nat.
Proof.
  eexists. split; [vm_compute; reflexivity | ].
  eapply (X7_filter_counts_partition [scenario1_job; plain_job; bonus_job] ["Python"]).
  - repeat constructor; vm_compute; reflexivity.
  - vm_compute. reflexivity.
Defined.

(** X8: on the card of a job's result, the tag of a required skill has the
    class [matched] exactly when the resume matches the skill, and
    [missing] otherwise. *)
Theorem X8_required_skill_tags
    (toString_other : Number -> string) (resumeSkills : list string)
    (j : Job) (reqs : list string) :
  requirements j = Some reqs ->
  exists card,
    createJobCard toString_other (resultOf resumeSkills j) = Returned card /\
    card_requiredTags card
    = map (fun skill => (if someMatch resumeSkills skill then "matched" else "missing", skill))
          reqs.
Proof.
  intros Hreq. exists (cardOf toString_other (resultOf resumeSkills j)). split.
  - apply createJobCard_present. cbn [resultOf job]. unfold has_requirements. congruence.
  - cbn [cardOf card_requiredTags resultOf job matchedSkills]. rewrite Hreq. cbn [or_empty].
    apply map_ext_in. intros skill Hin. unfold skillTag.
    rewrite Array_includes_filter, (proj2 (existsb_eqb_In reqs skill) Hin). reflexivity.
Qed.

Lemma X8_required_skill_tags_witness :
  exists card,
    createJobCard (fun _ => EmptyString) (resultOf ["Python"] scenario1_job) = Returned card /\
    card_requiredTags card
    = [("matched", "Python"); ("missing", "React"); ("missing", "AWS")].
Proof.
  destruct (X8_required_skill_tags (fun _ => EmptyString) ["Python"] scenario1_job
              ["Python"; "React"; "AWS"] eq_refl) as (card & Hc & Ht).
  exists card. split; [exact Hc | ]. rewrite Ht. reflexivity.
Defined.

(** X9: on the card of a job's result, the tag of a nice-to-have skill has
    the class [matched] only when the same string is also a required skill
    that the resume matches; a nice-to-have skill that is not a required
    skill is tagged [missing] even when the resume matches it. *)
Theorem X9_nice_to_have_skill_tags
    (toString_other : Number -> string) (resumeSkills : list string)
    (j : Job) (reqs nice : list string) :
  requirements j = Some reqs -> nice_to_have j = Some nice ->
  exists card,
    createJobCard toString_other (resultOf resumeSkills j) = Returned card /\
    card_niceToHaveTags card
    = map (fun skill =>
             (if existsb (String.eqb skill) reqs && someMatch resumeSkills skill
              then "matched" else "missing", skill))
          nice /\
    forall skill, In skill nice -> ~ In skill reqs ->
                  In ("missing", skill) (card_niceToHaveTags card).
Proof.
  intros Hreq Hnice. exists (cardOf toString_other (resultOf resumeSkills j)).
  assert (Htags : card_niceToHaveTags (cardOf toString_other (resultOf resumeSkills j))
                  = map (fun skill =>
                           (if existsb (String.eqb skill) reqs && someMatch resumeSkills skill
                            then "matched" else "missing", skill))
                        nice).
  { cbn [cardOf card_niceToHaveTags resultOf job matchedSkills].
    rewrite Hreq, Hnice. cbn [or_empty].
    apply map_ext. intros skill. unfold skillTag.
    rewrite Array_includes_filter. reflexivity. }
  split; [ | split; [exact Htags | ]].
  - apply createJobCard_present. cbn [resultOf job]. unfold has_requirements. congruence.
  - intros skill Hin Hnot. rewrite Htags. apply in_map_iff. exists skill.
    split; [ | exact Hin].
    destruct (existsb (String.eqb skill) reqs) eqn:E; [ | reflexivity].
    apply existsb_eqb_In in E. contradiction.
Qed.

Lemma X9_nice_to_have_skill_tags_witness :
  someMatch ["Docker"] "Docker" = true /\
  exists card,
    createJobCard (fun _ => EmptyString) (resultOf ["Docker"] bonus_job) = Returned card /\
    In ("missing", "Docker") (card_niceToHaveTags card).
Proof.
  split; [reflexivity | ].
  destruct (X9_nice_to_have_skill_tags (fun _ => EmptyString) ["Docker"] bonus_job
              ["Python"] ["Docker"] eq_refl eq_refl) as (card & Hc & _ & Hm).
  exists card. split; [exact Hc | ]. apply Hm.
  - left. reflexivity.
  - intros [H | []]. discriminate H.
Defined.

(** X10: [displayResults] on the results of a run puts one card per result
    on the page, in rank order; afterwards [applyFilter] with a tier name
    leaves on display exactly as many cards as [updateFilterCounts] counted
    for that tier, and with any other name it leaves every card on
    display. *)
Theorem X10_filter_shows_what_was_counted
    (toString_other : Number -> string) (jobData : list Job)
    (resumeSkills : list string) (out : list MatchResult) (p : Page) :
  Forall arrays_ok jobData ->
  analyzeSkills jobData resumeSkills = Returned out ->
  exists p',
    displayResults toString_other out p = (p', None) /\
    resultsSection_hidden p' = false /\
    resultsGrid p' = map (cardOf toString_other) out /\
    (forall name n,
       countFor (filterCounts out) name = Some n ->
       List.length (visibleCards (applyFilter name p')) = n) /\
    (forall name,
       countFor (filterCounts out) name = None ->
       List.length (visibleCards (applyFilter name p')) = List.length jobData).
Proof.
  intros Harr Hout.
  destruct (run_results_wellformed _ _ _ Harr Hout) as (Hlen & Hreq & Hint).
  eexists. split; [apply displayResults_present, Hreq | ].
  split; [reflexivity | ]. split; [reflexivity | ].
  assert (Hvis : forall name,
             List.length
               (visibleCards
                  (applyFilter name
                     (updateFilterCounts toString_other out
                        (setResults false (map (cardOf toString_other) out) p))))
             = List.length (filter (fun r => filterShows name (matchScore r)) out)).
  { intros name. rewrite visibleCards_applyFilter.
    apply filter_cards_of_matches, Hint. }
  split.
  - intros name n Hn. rewrite Hvis. unfold countFor, filterShows in *.
    destruct (String.eqb name "high"); [injection Hn as <-; reflexivity | ].
    destruct (String.eqb name "medium"); [injection Hn as <-; reflexivity | ].
    destruct (String.eqb name "low"); [injection Hn as <-; reflexivity | discriminate].
  - intros name Hn. rewrite Hvis, <- Hlen. unfold countFor, filterShows in *.
    destruct (String.eqb name "high"); [discriminate | ].
    destruct (String.eqb name "medium"); [discriminate | ].
    destruct (String.eqb name "low"); [discriminate | ].
    rewrite filter_true. reflexivity.
Qed.

Lemma X10_filter_witness :
  exists out p',
    analyzeSkills [scenario1_job; plain_job; bonus_job] ["Python"] = Returned out /\
    displayResults (fun _ => EmptyString) out (freshPage "Python") = (p', None) /\
    List.length (visibleCards (applyFilter "high" p')) = high (filterCounts out).
Proof.
  assert (Harr : Forall arrays_ok [scenario1_job; plain_job; bonus_job])
    by (repeat constructor; vm_compute; reflexivity).
  destruct (analyzeSkills [scenario1_job; plain_job; bonus_job] ["Python"]) as [out | e] eqn:E;
    [ | vm_compute in E; discriminate E].
  destruct (X10_filter_shows_what_was_counted (fun _ => EmptyString)
              [scenario1_job; plain_job; bonus_job] ["Python"] out (freshPage "Python")
              Harr E) as (p' & Hd & _ & _ & Hc & _).
  exists out, p'. split; [reflexivity | ]. split; [exact Hd | ].
  apply Hc. reflexivity.
Defined.


(** X12: rewriting a filter button's label again drops the count written
    before and shows the new one; the text before the first parenthesis is
    kept, with one more space after it each time. *)
Theorem X12_count_label_rewritten
    (toString_other : Number -> string) (text : string) (c1 c2 : option nat) :
  countLabel toString_other (countLabel toString_other text c1) c2
  = (beforeFirst "(" text ++ " " ++ " (" ++ countText toString_other c2 ++ ")")%string.
Proof.
  unfold countLabel at 1. rewrite beforeFirst_countLabel.
  induction (beforeFirst "(" text) as [ | c r IH]; [reflexivity | ].
  cbn [String.append]. f_equal. exact IH.
Qed.


Lemma tier_filter_is_level (name : string) (x : Number) :
  integer_score x -> In name ["high"; "medium"; "low"] ->
  filterShows name x = String.eqb (getMatchLevel x) name.
Proof.
  intros Hx Hname. unfold filterShows.
  destruct (tier_cases x Hx)
    as [(-> & -> & -> & ->) | [(-> & -> & -> & ->) | (-> & -> & -> & ->)]];
    destruct Hname as [<- | [<- | [<- | []]]]; reflexivity.
Qed.

(** X13: once the results of a run are on display, [applyFilter] with a
    tier name leaves on display exactly the cards whose score badge has
    that tier as its class. *)
Theorem X13_filter_shows_the_badged_tier
    (toString_other : Number -> string) (jobData : list Job)
    (resumeSkills : list string) (out : list MatchResult) (p : Page)
    (name : string) (card : Card) :
  Forall arrays_ok jobData ->
  analyzeSkills jobData resumeSkills = Returned out ->
  In name ["high"; "medium"; "low"] ->
  In card (resultsGrid (applyFilter name (fst (displayResults toString_other out p)))) ->
  (card_display card = "block" <-> card_matchLevel card = name) /\
  (card_display card = "none" <-> card_matchLevel card <> name).
Proof.
  intros Harr Hout Hname Hin.
  destruct (run_results_wellformed _ _ _ Harr Hout) as (_ & Hreq & Hint).
  rewrite (displayResults_present toString_other out p Hreq) in Hin.
  cbn [fst applyFilter resultsGrid] in Hin.
  rewrite resultsGrid_updateFilterCounts in Hin. cbn [setResults resultsGrid] in Hin.
  rewrite map_map in Hin. apply in_map_iff in Hin. destruct Hin as (m & <- & Hm).
  rewrite Forall_forall in Hint. specialize (Hint m Hm).
  cbn [card_display card_matchLevel card_matchScore].
  rewrite (parseInt_card_matchScore toString_other m Hint).
  rewrite (tier_filter_is_level name _ Hint Hname).
  cbn [cardOf card_matchLevel].
  destruct (String.eqb_spec (getMatchLevel (matchScore m)) name) as [E | NE].
  - split; [tauto | ]. split; [discriminate | intros H; contradiction].
  - split; [ | tauto]. split; [discriminate | intros H; contradiction].
Qed.

Lemma X13_filter_badge_witness :
  In {| card_matchScore := "0"; card_title := "Plain"; card_company := "Acme";
        card_matchLevel := "low";
        card_requiredTags := [("missing", "Python")]; card_niceToHaveTags := [];
        card_applyUrl := ""; card_display := "block" |}
     (resultsGrid
        (applyFilter "low"
           (fst (displayResults (fun _ => EmptyString)
                   [resultOf ["Docker"] plain_job] (freshPage "Docker"))))) /\
  ("block" = "block" <-> "low" = "low").
Proof.
  assert (Hin : In {| card_matchScore := "0"; card_title := "Plain"; card_company := "Acme";
                      card_matchLevel := "low";
                      card_requiredTags := [("missing", "Python")];
                      card_niceToHaveTags := [];
                      card_applyUrl := ""; card_display := "block" |}
                   (resultsGrid
                      (applyFilter "low"
                         (fst (displayResults (fun _ => EmptyString)
                                 [resultOf ["Docker"] plain_job] (freshPage "Docker"))))))
    by (vm_compute; left; reflexivity).
  split; [exact Hin | ].
  assert (Harr : Forall arrays_ok [plain_job]) by (repeat constructor; vm_compute; reflexivity).
  assert (Hrun : analyzeSkills [plain_job] ["Docker"] = Returned [resultOf ["Docker"] plain_job])
    by (vm_compute; reflexivity).
  exact (proj1 (X13_filter_shows_the_badged_tier (fun _ => EmptyString) [plain_job] ["Docker"]
                  [resultOf ["Docker"] plain_job] (freshPage "Docker") "low" _
                  Harr Hrun (or_intror (or_intror (or_introl eq_refl))) Hin)).
Defined.

Lemma filter_subsequence_mono {A : Type} (f g : A -> bool) (l : list A) :
  (forall a, In a l -> f a = true -> g a = true) ->
  subsequence (filter f l) (filter g l).
Proof.
  induction l as [ | a l IH]; intros H; cbn [filter]; [constructor | ].
  assert (IH' : subsequence (filter f l) (filter g l)).
  { apply IH. intros b Hb. apply H. right. exact Hb. }
  destruct (f a) eqn:Fa.
  - rewrite (H a (or_introl eq_refl) Fa). apply subsequence_keep. exact IH'.
  - destruct (g a); [apply subsequence_skip | ]; exact IH'.
Qed.

Lemma someMatch_incl (rs rs' : list string) (skill : string) :
  incl rs rs' -> someMatch rs skill = true -> someMatch rs' skill = true.
Proof.
  unfold someMatch. intros Hincl H. apply existsb_exists in H.
  destruct H as (x & Hx & Hm). apply existsb_exists. exists x. split; [apply Hincl, Hx | exact Hm].
Qed.

(** X14: adding skills to the resume skill set never loses a matched skill
    and never adds a missing one: the matched skills before are a
    sub-list of the matched skills after, and the missing skills after a
    sub-list of the missing skills before. *)
Theorem X14_more_resume_skills_more_matches
    (resumeSkills resumeSkills' : list string) (j : Job) :
  incl resumeSkills resumeSkills' ->
  subsequence (matchedSkills (resultOf resumeSkills j))
              (matchedSkills (resultOf resumeSkills' j)) /\
  subsequence (missingSkills (resultOf resumeSkills' j))
              (missingSkills (resultOf resumeSkills j)).
Proof.
  intros Hincl. cbn [resultOf matchedSkills missingSkills]. split.
  - apply filter_subsequence_mono. intros s _. apply someMatch_incl, Hincl.
  - apply filter_subsequence_mono. intros s _ H.
    destruct (someMatch resumeSkills s) eqn:E; [ | reflexivity].
    rewrite (someMatch_incl _ _ _ Hincl E) in H. discriminate.
Qed.

Lemma X14_more_resume_skills_witness :
  subsequence (matchedSkills (resultOf ["Python"] scenario1_job))
              (matchedSkills (resultOf ["Python"; "React"] scenario1_job)).
Proof.
  apply (X14_more_resume_skills_more_matches ["Python"] ["Python"; "React"] scenario1_job).
  intros s [<- | []]. left. reflexivity.
Defined.




